(** * dns-over-tls-proxy: the query pipeline of [main.go]

    A shallow embedding of [ServeDNS] and [resolveOverTLS] together with
    the parts of their libraries that decide what they do: the [time]
    arithmetic behind the TTL, the go-cache store behind [inmem] and the
    message helpers of the dns package. *)

From Stdlib Require Import ZArith Lia.
From stdpp Require Import base gmap strings list.

Local Open Scope Z_scope.

(** ** Fixed-width integers *)

Module Go.

(** An [int64] result, wrapped into its range. *)
Definition wrap64 (z : Z) : Z := (z + 2 ^ 63) mod 2 ^ 64 - 2 ^ 63.

(** The low 32 bits, read as a [uint32]. *)
Definition low32 (z : Z) : Z := z mod 2 ^ 32.

Definition minInt64 : Z := - 2 ^ 63.
Definition maxInt64 : Z := 2 ^ 63 - 1.

End Go.

(** ** binary64 arithmetic

    [time.Duration.Seconds] computes in [float64].  A finite value is kept
    as an exact fraction [fnum / fden]; [round] rounds a fraction to 53
    significant bits, ties to even.  The values met here are far from the
    subnormal and overflow ranges, which are left out. *)

Module float64.

Record t : Type := mk { fnum : Z; fden : Z }.

(** Nearest integer to [N / D], ties to even ([0 < D]). *)
Definition rne (N D : Z) : Z :=
  let q := N / D in
  let r := N mod D in
  if 2 * r <? D then q
  else if D <? 2 * r then q + 1
  else if Z.even q then q else q + 1.

(** The exponent [e] of the last place of [n / d]:
    [2^52 <= (n / d) / 2^e < 2^53], for [0 < n] and [0 < d]. *)
Definition ulp_exp (n d : Z) : Z :=
  let k := Z.log2 n - Z.log2 d - 52 in
  if 2 ^ 52 * (d * 2 ^ Z.max 0 k) <=? n * 2 ^ Z.max 0 (- k) then k else k - 1.

Definition round_pos (n d : Z) : t :=
  let e := ulp_exp n d in
  let m := rne (n * 2 ^ Z.max 0 (- e)) (d * 2 ^ Z.max 0 e) in
  mk (m * 2 ^ Z.max 0 e) (2 ^ Z.max 0 (- e)).

(** Rounding of the fraction [n / d], [0 < d]. *)
Definition round (n d : Z) : t :=
  if n =? 0 then mk 0 1
  else if n <? 0 then
    let r := round_pos (- n) d in mk (- fnum r) (fden r)
  else round_pos n d.

(** [float64(i)] for an integer [i]; below [2^53] the conversion is
    exact. *)
Definition of_int (i : Z) : t :=
  if Z.abs i <? 2 ^ 53 then mk i 1 else round i 1.

Definition add (a b : t) : t :=
  round (fnum a * fden b + fnum b * fden a) (fden a * fden b).

(** [a / b] for [0 < b]. *)
Definition div (a b : t) : t :=
  round (fnum a * fden b) (fden a * fnum b).

(** The integer part, towards zero. *)
Definition trunc (a : t) : Z := Z.quot (fnum a) (fden a).

(** [uint32(f)] as the gc compiler does it on 64-bit targets: the value
    is converted to [int64] and the low 32 bits are kept.  For a value in
    the range of [uint32] this is the integer part; outside it the
    language leaves the result to the implementation. *)
Definition to_uint32 (a : t) : Z := Go.low32 (trunc a).

End float64.

(** ** Package time ([time.go]) *)

Module time.

(** A [Duration] is an [int64] count of nanoseconds. *)
Definition Duration := Z.

Definition Nanosecond : Duration := 1.
Definition Second : Duration := 1000000000.
Definition Minute : Duration := 60 * Second.

(** A [Time] is kept as its nanoseconds since the Unix epoch. *)
Definition Time := Z.

(** [time.Time{}], January 1 of year 1. *)
Definition zeroTime : Time := -62135596800 * 1000000000.

Definition Add (t : Time) (d : Duration) : Time := t + d.

Definition UnixNano (t : Time) : Z := Go.wrap64 t.

(** [time.Unix(0, nsec)]. *)
Definition Unix0 (nsec : Z) : Time := nsec.

(** [t.Sub(u)]: the difference, saturated to the range of [Duration]. *)
Definition Sub (t u : Time) : Duration :=
  let d := t - u in
  if d <? Go.minInt64 then Go.minInt64
  else if Go.maxInt64 <? d then Go.maxInt64
  else d.

(** [d.Seconds()]:
    [sec := d / Second; nsec := d % Second;
     return float64(sec) + float64(nsec)/1e9]. *)
Definition Seconds (d : Duration) : float64.t :=
  let sec := Z.quot d Second in
  let nsec := Z.rem d Second in
  float64.add (float64.of_int sec)
              (float64.div (float64.of_int nsec) (float64.of_int 1000000000)).

End time.

(** The wall clock is an oracle: the [n]-th call of [time.Now] in a run
    returns [clk n].  A computation that may read the clock takes the
    oracle and the number of reads made so far, and returns the new
    count with its result. *)
Module clock.

Definition t (A : Type) : Type := (nat -> time.Time) -> nat -> A * nat.

Definition ret {A : Type} (a : A) : t A := fun _ n => (a, n).

Definition Now : t time.Time := fun clk n => (clk n, S n).

End clock.

(** ** Package net: an [IP] is a byte slice, [nil] being the empty one. *)

Module net.

Definition IP : Type := list Z.
Definition nil_IP : IP := [].

End net.

(** ** The answer type of [main.go] and the values an [interface{}] holds *)

(** [type Answer struct { ip string; ttl uint32 }] *)
Record Answer : Type := mkAnswer { ip : string; ttl : Z }.

(** [var answer Answer] *)
Definition zeroAnswer : Answer := mkAnswer "" 0.

(** A value boxed in an [interface{}], with its dynamic type. *)
Inductive iface : Type :=
| Nil
| OfAnswer (a : Answer)
| OfString (s : string)
| OfInt (i : Z)
| OfBool (b : bool).

(** ** Package go-cache (github.com/patrickmn/go-cache, [cache.go]) *)

Module cache.

Definition NoExpiration : time.Duration := -1.
Definition DefaultExpiration : time.Duration := 0.

Record Item : Type := mkItem { Object : iface; Expiration : Z }.

Record Cache : Type := mkCache {
  defaultExpiration : time.Duration;
  items : gmap string Item
}.

(** [cache.New(defaultExpiration, cleanupInterval)]: an empty store,
    with [if de == 0 { de = -1 }]; the interval only sets the period of
    the janitor. *)
Definition New (de ci : time.Duration) : Cache :=
  mkCache (if de =? 0 then -1 else de) ∅.

(** [c.Set(k, x, d)] ([Set] is reserved, hence the name):
    [if d == DefaultExpiration { d = c.defaultExpiration }
     if d > 0 { e = time.Now().Add(d).UnixNano() }
     c.items[k] = Item{Object: x, Expiration: e}] *)
Definition Set_ (c : Cache) (k : string) (x : iface) (d : time.Duration)
  : clock.t Cache :=
  fun clk n =>
    let d := if d =? DefaultExpiration then defaultExpiration c else d in
    if 0 <? d then
      let '(now, n) := clock.Now clk n in
      let e := time.UnixNano (time.Add now d) in
      (mkCache (defaultExpiration c) (<[k := mkItem x e]> (items c)), n)
    else
      (mkCache (defaultExpiration c) (<[k := mkItem x 0]> (items c)), n).

(** [c.GetWithExpiration(k)]: the object, its expiration time and whether
    the key was found:
    [item, found := c.items[k]
     if !found { return nil, time.Time{}, false }
     if item.Expiration > 0 {
       if time.Now().UnixNano() > item.Expiration {
         return nil, time.Time{}, false
       }
       return item.Object, time.Unix(0, item.Expiration), true
     }
     return item.Object, time.Time{}, true]
    An item is expired once the clock is strictly past its expiration. *)
Definition GetWithExpiration (c : Cache) (k : string)
  : clock.t (iface * time.Time * bool) :=
  fun clk n =>
    match items c !! k with
    | None => ((Nil, time.zeroTime, false), n)
    | Some item =>
        if 0 <? Expiration item then
          let '(now, n) := clock.Now clk n in
          if Expiration item <? time.UnixNano now
          then ((Nil, time.zeroTime, false), n)
          else ((Object item, time.Unix0 (Expiration item), true), n)
        else ((Object item, time.zeroTime, true), n)
    end.

(** [c.DeleteExpired()], run by the janitor once per cleanup interval:
    every item with [v.Expiration > 0 && now > v.Expiration] is deleted. *)
Definition DeleteExpired (c : Cache) : clock.t Cache :=
  fun clk n =>
    let '(now, n) := clock.Now clk n in
    (mkCache (defaultExpiration c)
       (filter (fun kv => negb ((0 <? Expiration kv.2)
                                && (Expiration kv.2 <? time.UnixNano now)))
               (items c)), n).

End cache.

(** ** Package dns (github.com/miekg/dns, [msg.go] and [defaults.go]) *)

Module dns.

Definition TypeA : Z := 1.
Definition TypeCNAME : Z := 5.
Definition TypeAAAA : Z := 28.
Definition ClassINET : Z := 1.
Definition OpcodeQuery : Z := 0.
Definition RcodeSuccess : Z := 0.

Record Question : Type := mkQuestion {
  Name : string;
  Qtype : Z;
  Qclass : Z
}.

Record RR_Header : Type := mkHeader {
  Hdr_Name : string;
  Rrtype : Z;
  Class : Z;
  Ttl : Z;
  Rdlength : Z
}.

(** A resource record is an interface; [A] is the record [*dns.A], and
    [Other] stands for the records of every other Go type, with their
    data left as bytes. *)
Inductive RR : Type :=
| A (Hdr : RR_Header) (addr : net.IP)
| Other (Hdr : RR_Header) (rdata : list Z).

Definition Header (rr : RR) : RR_Header :=
  match rr with A h _ => h | Other h _ => h end.

Record MsgHdr : Type := mkMsgHdr {
  Id : Z;
  Response : bool;
  Opcode : Z;
  Authoritative : bool;
  Truncated : bool;
  RecursionDesired : bool;
  RecursionAvailable : bool;
  Zero : bool;
  AuthenticatedData : bool;
  CheckingDisabled : bool;
  Rcode : Z
}.

Record Msg : Type := mkMsg {
  Hdr : MsgHdr;
  Compress : bool;
  Question_ : list Question;
  Answer : list RR;
  Ns : list RR;
  Extra : list RR
}.

(** [dns.Msg{}] and [new(dns.Msg)] *)
Definition zeroMsg : Msg :=
  mkMsg (mkMsgHdr 0 false 0 false false false false false false false 0)
        false [] [] [] [].

Definition with_Question (m : Msg) (q : list Question) : Msg :=
  mkMsg (Hdr m) (Compress m) q (Answer m) (Ns m) (Extra m).

Definition with_Answer (m : Msg) (a : list RR) : Msg :=
  mkMsg (Hdr m) (Compress m) (Question_ m) a (Ns m) (Extra m).

Definition with_Hdr (m : Msg) (h : MsgHdr) : Msg :=
  mkMsg h (Compress m) (Question_ m) (Answer m) (Ns m) (Extra m).

(** [dns.SetReply(request)]:
    [dns.Id = request.Id
     dns.Response = true
     dns.Opcode = request.Opcode
     if dns.Opcode == OpcodeQuery {
       dns.RecursionDesired = request.RecursionDesired
       dns.CheckingDisabled = request.CheckingDisabled
     }
     dns.Rcode = RcodeSuccess
     if len(request.Question) > 0 {
       dns.Question = make([]Question, 1)
       dns.Question[0] = request.Question[0]
     }]
    Of the questions of the request the first one is copied, alone. *)
Definition SetReply (dns request : Msg) : Msg :=
  let h := Hdr dns in
  let rh := Hdr request in
  let query := Opcode rh =? OpcodeQuery in
  let h' :=
    mkMsgHdr (Id rh) true (Opcode rh) (Authoritative h) (Truncated h)
             (if query then RecursionDesired rh else RecursionDesired h)
             (RecursionAvailable h) (Zero h) (AuthenticatedData h)
             (if query then CheckingDisabled rh else CheckingDisabled h)
             RcodeSuccess in
  let dns := with_Hdr dns h' in
  match Question_ request with
  | q :: _ => with_Question dns [q]
  | [] => dns
  end.

(** [dns.SetQuestion(z, t)], with the fresh identifier [id] that [Id()]
    drew:
    [dns.Id = Id()
     dns.RecursionDesired = true
     dns.Question = make([]Question, 1)
     dns.Question[0] = Question{z, t, ClassINET}] *)
Definition SetQuestion (dns : Msg) (z : string) (t : Z) (id : Z) : Msg :=
  let h := Hdr dns in
  let h' :=
    mkMsgHdr id (Response h) (Opcode h) (Authoritative h) (Truncated h)
             true (RecursionAvailable h) (Zero h) (AuthenticatedData h)
             (CheckingDisabled h) (Rcode h) in
  with_Question (with_Hdr dns h') [mkQuestion z t ClassINET].

(** What [w.RemoteAddr()] and [w.WriteMsg] give for one client. *)
Record ResponseWriter : Type := mkWriter {
  RemoteAddr_String : string;
  RemoteAddr_Network : string;
  WriteMsg_err : Msg -> option string
}.

End dns.

(** ** The process: its store, its surroundings and what it does to them *)

Inductive Level : Type := InfoLevel | ErrorLevel.

(** What a run leaves outside the process, in the order it happened:
    a record of the log, a call of [c.Exchange] with its query and
    server (the call, whether or not the transport got the query out),
    and a call of [w.WriteMsg] with its reply (the call, whether or not
    the write got the reply to the client). *)
Inductive Event : Type :=
| Log (lvl : Level) (fields : list (string * iface)) (msg : string)
| Exchanged (m : dns.Msg) (server : string)
| Wrote (m : dns.Msg).

(** The state of the process: the package variable [inmem], the number
    of clock reads made so far, and the events so far, oldest first. *)
Record World : Type := mkWorld {
  inmem : cache.Cache;
  reads : nat;
  trace : list Event
}.

(** What the process is given: the wall clock, the upstream resolver
    ([c.Exchange]: a response or the text of a transport error), the
    identifier [dns.Id()] draws, the address codec of package net and the
    value of the [-resolver] flag. *)
Record Env : Type := mkEnv {
  now : nat -> time.Time;
  upstream : dns.Msg -> string -> dns.Msg + string;
  freshId : Z;
  ParseIP : string -> net.IP;
  IP_String : net.IP -> string;
  resolver : string
}.

(** A call either returns or panics. *)
Inductive outcome (A : Type) : Type :=
| Ret (a : A)
| Panic (reason : string).
Arguments Ret {A} a.
Arguments Panic {A} reason.

Definition M (A : Type) : Type := Env -> World -> outcome A * World.

#[global] Instance M_ret : MRet M := fun A a _ w => (Ret a, w).

#[global] Instance M_bind : MBind M := fun A B f m env w =>
  match m env w with
  | (Ret a, w') => f a env w'
  | (Panic r, w') => (Panic r, w')
  end.

Definition panic {A : Type} (reason : string) : M A :=
  fun _ w => (Panic reason, w).

Definition ask : M Env := fun env w => (Ret env, w).

Definition get_inmem : M cache.Cache := fun _ w => (Ret (inmem w), w).

Definition put_inmem (c : cache.Cache) : M unit :=
  fun _ w => (Ret tt, mkWorld c (reads w) (trace w)).

Definition emit (e : Event) : M unit :=
  fun _ w => (Ret tt, mkWorld (inmem w) (reads w) (trace w ++ [e])).

(** A computation on the clock, run on the process's clock. *)
Definition with_clock {A : Type} (c : clock.t A) : M A :=
  fun env w =>
    let '(a, n) := c (now env) (reads w) in
    (Ret a, mkWorld (inmem w) n (trace w)).

(** [c.Exchange(m, dnsServer)] on a client with [c.Net = "tcp-tls"]: the
    call is recorded, and the surroundings decide what it returns. *)
Definition Exchange (m : dns.Msg) (dnsServer : string)
  : M (dns.Msg + string) :=
  env ← ask;
  emit (Exchanged m dnsServer);;
  mret (upstream env m dnsServer).

(** [w.WriteMsg(&msg)] *)
Definition WriteMsg (w : dns.ResponseWriter) (msg : dns.Msg)
  : M (option string) :=
  emit (Wrote msg);;
  mret (dns.WriteMsg_err w msg).

(** [x.(Answer)]: panics unless the dynamic type is [Answer]. *)
Definition assert_Answer (x : iface) : M Answer :=
  match x with
  | OfAnswer a => mret a
  | _ => panic "interface conversion: interface {} is not main.Answer"
  end.

(** [s[0]]: panics on an empty slice. *)
Definition first {A : Type} (s : list A) : M A :=
  match s with
  | x :: _ => mret x
  | [] => panic "index out of range"
  end.

(** ** [main.go] *)

(** [var inmem = cache.New(1*time.Minute, 1*time.Minute)] *)
Definition inmem0 : cache.Cache := cache.New (1 * time.Minute) (1 * time.Minute).

(** [time.Duration(int64(ttl)) * time.Second] *)
Definition ttlDuration (ttl : Z) : time.Duration :=
  Go.wrap64 (Go.wrap64 ttl * time.Second).

(** [uint32(expr.Sub(now).Seconds())], the TTL left at [now] to an entry
    that expires at [expr]. *)
Definition remaining (expr now : time.Time) : Z :=
  float64.to_uint32 (time.Seconds (time.Sub expr now)).

(** [func resolveOverTLS(domain, dnsServer string) (Answer, bool, error)];
    an error is kept as its text. *)
Definition resolveOverTLS (domain dnsServer : string)
  : M (Answer * bool * option string) :=
  let answer := zeroAnswer in
  c ← get_inmem;
  '(mem, expr, found) ← with_clock (cache.GetWithExpiration c domain);
  if found : bool then
    answer ← assert_Answer mem;
    t ← with_clock clock.Now;
    let answer := mkAnswer (ip answer) (remaining expr t) in
    mret (answer, true, None)
  else
    env ← ask;
    let m := dns.SetQuestion dns.zeroMsg domain dns.TypeA (freshId env) in
    r ← Exchange m dnsServer;
    match r with
    | inr err =>
        mret (answer, false, Some (String.append "DNS query error: " err))
    | inl in_ =>
        let cached (answer : Answer) : M (Answer * bool * option string) :=
          c ← get_inmem;
          c' ← with_clock (cache.Set_ c domain (OfAnswer answer)
                                      (ttlDuration (ttl answer)));
          put_inmem c';;
          mret (answer, false, None) in
        match dns.Answer in_ with
        | [] => cached answer
        | dns.A hdr a :: _ =>
            cached (mkAnswer (IP_String env a) (dns.Ttl hdr))
        | dns.Other _ _ :: _ =>
            mret (answer, false, Some "DNS query error")
        end
    end.

(** [func (Handler) ServeDNS(w dns.ResponseWriter, r *dns.Msg)] *)
Definition ServeDNS (w : dns.ResponseWriter) (r : dns.Msg) : M unit :=
  let msg := dns.SetReply dns.zeroMsg r in
  let notImplemented : M unit :=
    emit (Log ErrorLevel [] "Not implemented yet") in
  if (0 <? length (dns.Question_ r))%nat then
    q ← first (dns.Question_ r);
    emit (Log InfoLevel
              [("remote_addr", OfString (dns.RemoteAddr_String w));
               ("requested_domain", OfString (dns.Name q));
               ("protocol", OfString (dns.RemoteAddr_Network w))]
              "DNS request");;
    if dns.Qtype q =? dns.TypeA then
      mq ← first (dns.Question_ msg);
      let domain := dns.Name mq in
      env ← ask;
      '(answer, useCache, err) ← resolveOverTLS domain (resolver env);
      match err with
      | Some e => emit (Log InfoLevel [] e)
      | None => mret tt
      end;;
      emit (Log InfoLevel [("use_cache", OfBool useCache)] "Cache usage");;
      let rr :=
        dns.A (dns.mkHeader domain dns.TypeA dns.ClassINET (ttl answer) 0)
              (ParseIP env (ip answer)) in
      let msg := dns.with_Answer msg (dns.Answer msg ++ [rr]) in
      werr ← WriteMsg w msg;
      match werr with
      | Some e => emit (Log ErrorLevel [] e)
      | None => mret tt
      end
    else notImplemented
  else notImplemented.

(** ** Reading a run *)

(** The replies passed to [w.WriteMsg], oldest first. *)
Definition replies (tr : list Event) : list dns.Msg :=
  omap (fun e => match e with Wrote m => Some m | _ => None end) tr.

(** The calls of [c.Exchange], oldest first, each with its query and
    its server. *)
Definition exchanges (tr : list Event) : list (dns.Msg * string) :=
  omap (fun e => match e with Exchanged m s => Some (m, s) | _ => None end) tr.

(** The query [resolveOverTLS] builds for [domain]. *)
Definition question (env : Env) (domain : string) : dns.Msg :=
  dns.SetQuestion dns.zeroMsg domain dns.TypeA (freshId env).

(** The world after the store of [answer] that ends a successful miss. *)
Definition stored (env : Env) (w : World) (domain : string) (answer : Answer)
  : World :=
  let '(c, n) := cache.Set_ (inmem w) domain (OfAnswer answer)
                            (ttlDuration (ttl answer)) (now env) (reads w) in
  mkWorld c n (trace w).

(** The record logged for an accepted request. *)
Definition requestLog (w : dns.ResponseWriter) (q : dns.Question) : Event :=
  Log InfoLevel
      [("remote_addr", OfString (dns.RemoteAddr_String w));
       ("requested_domain", OfString (dns.Name q));
       ("protocol", OfString (dns.RemoteAddr_Network w))]
      "DNS request".

Definition notImplementedLog : Event :=
  Log ErrorLevel [] "Not implemented yet".

(** The reply [ServeDNS] writes for the request [r] once [domain] has
    been resolved to [answer]. *)
Definition reply (env : Env) (r : dns.Msg) (domain : string) (answer : Answer)
  : dns.Msg :=
  let msg := dns.SetReply dns.zeroMsg r in
  dns.with_Answer msg
    (dns.Answer msg ++
     [dns.A (dns.mkHeader domain dns.TypeA dns.ClassINET (ttl answer) 0)
            (ParseIP env (ip answer))]).

(** What [ServeDNS] leaves in the trace after [resolveOverTLS] returned
    [answer], [useCache] and [err]. *)
Definition served (env : Env) (w : dns.ResponseWriter) (r : dns.Msg)
    (domain : string) (answer : Answer) (useCache : bool)
    (err : option string) : list Event :=
  match err with Some e => [Log InfoLevel [] e] | None => [] end ++
  [Log InfoLevel [("use_cache", OfBool useCache)] "Cache usage";
   Wrote (reply env r domain answer)] ++
  match dns.WriteMsg_err w (reply env r domain answer) with
  | Some e => [Log ErrorLevel [] e]
  | None => []
  end.

(** The upstream exchange ends in an error for [resolveOverTLS]: the
    transport failed, or the first answer record is not a [*dns.A]. *)
Definition upstream_fails (r : dns.Msg + string) : bool :=
  match r with
  | inr _ => true
  | inl in_ =>
      match dns.Answer in_ with
      | dns.Other _ _ :: _ => true
      | _ => false
      end
  end.

(** Whether the lookup of [domain] that opens [resolveOverTLS] finds it. *)
Definition found (env : Env) (w : World) (domain : string) : bool :=
  (cache.GetWithExpiration (inmem w) domain (now env) (reads w)).1.2.

(** The [useCache] result of a call that returned. *)
Definition useCache {A E : Type} (o : outcome (A * bool * E)) : option bool :=
  match o with
  | Ret (_, u, _) => Some u
  | Panic _ => None
  end.

(** Every object in the store is an [Answer]. *)
Definition answers_only (c : cache.Cache) : Prop :=
  forall k item, cache.items c !! k = Some item ->
                 exists a, cache.Object item = OfAnswer a.

(** The states of [inmem] the process can be in: the initial store, and
    what a call of the handler, a call of [resolveOverTLS] or a sweep of
    the janitor makes of a reachable store, whatever the surroundings.
    Handlers run concurrently and meet at the store, whose operations
    are atomic: [reach_store] is the store that ends the miss of a
    handler whose lookup was made in an earlier state. *)
Inductive reachable : cache.Cache -> Prop :=
| reach_init : reachable inmem0
| reach_serve c env n tr w r o w' :
    reachable c ->
    ServeDNS w r env (mkWorld c n tr) = (o, w') ->
    reachable (inmem w')
| reach_resolve c env n tr domain dnsServer o w' :
    reachable c ->
    resolveOverTLS domain dnsServer env (mkWorld c n tr) = (o, w') ->
    reachable (inmem w')
| reach_store c env n tr domain answer :
    reachable c ->
    reachable (inmem (stored env (mkWorld c n tr) domain answer))
| reach_sweep c clk n :
    reachable c ->
    reachable (cache.DeleteExpired c clk n).1.

(** The seconds an answer of TTL [ttl] stays in [inmem] after its store:
    [Set] takes the zero duration of a TTL of 0 for the default
    expiration of the store, one minute. *)
Definition lifetime (ttl : Z) : Z := if ttl =? 0 then 60 else ttl.

(** ** Sample runs *)

Module sample.

(** 2023-11-14 22:13:20 UTC. *)
Definition t0 : time.Time := 1700000000 * time.Second.

(** A clock that advances by [step] between two reads. *)
Definition ticking (step : time.Duration) : nat -> time.Time :=
  fun n => t0 + Z.of_nat n * step.

Definition addr : net.IP := [93; 184; 216; 34].

(** The address codec, on the one address of the samples. *)
Definition parse (s : string) : net.IP :=
  if String.eqb s "93.184.216.34" then addr else net.nil_IP.

Definition print (a : net.IP) : string :=
  match a with
  | [] => "<nil>"
  | _ => "93.184.216.34"
  end.

Definition env (step : time.Duration)
    (up : dns.Msg -> string -> dns.Msg + string) : Env :=
  mkEnv (ticking step) up 4242 parse print "1.1.1.1:853".

Definition response (rrs : list dns.RR) : dns.Msg :=
  dns.with_Answer dns.zeroMsg rrs.

Definition answers (rrs : list dns.RR) : dns.Msg -> string -> dns.Msg + string :=
  fun _ _ => inl (response rrs).

Definition timeout : dns.Msg -> string -> dns.Msg + string :=
  fun _ _ => inr "read tcp: i/o timeout".

Definition rrA (ttl : Z) : dns.RR :=
  dns.A (dns.mkHeader "example.com." dns.TypeA dns.ClassINET ttl 4) addr.

Definition rrCNAME : dns.RR :=
  dns.Other (dns.mkHeader "example.com." dns.TypeCNAME dns.ClassINET 300 6)
            [3; 119; 119; 119; 192; 12].

Definition writer : dns.ResponseWriter :=
  dns.mkWriter "127.0.0.1:40000" "udp" (fun _ => None).

Definition query (qs : list dns.Question) : dns.Msg :=
  dns.with_Question
    (dns.with_Hdr dns.zeroMsg
       (dns.mkMsgHdr 77 false dns.OpcodeQuery false false true false false
                     false false 0))
    qs.

Definition qA : dns.Question :=
  dns.mkQuestion "example.com." dns.TypeA dns.ClassINET.

Definition qAAAA : dns.Question :=
  dns.mkQuestion "example.com." dns.TypeAAAA dns.ClassINET.

Definition start : World := mkWorld inmem0 0 [].

(** A store holding [a] for "example.com." as [Set_] leaves it at [t0]
    for a TTL of [ttl] seconds. *)
Definition holding (a : Answer) (ttl : Z) : World :=
  mkWorld (cache.Set_ inmem0 "example.com." (OfAnswer a) (ttlDuration ttl)
                      (fun _ => t0) 0%nat).1
          0 [].

(** The world after "example.com." was resolved upstream, at [t0], to
    the sample address with a TTL of 300 seconds. *)
Definition warmed : World :=
  (resolveOverTLS "example.com." "1.1.1.1:853"
                  (env time.Second (answers [rrA 300])) start).2.

(** The world after a response without answers for "example.com.". *)
Definition emptied : World :=
  (resolveOverTLS "example.com." "1.1.1.1:853"
                  (env time.Second (answers [])) start).2.

(** A client whose connection is gone: every write fails. *)
Definition closed : dns.ResponseWriter :=
  dns.mkWriter "127.0.0.1:40000" "tcp" (fun _ => Some "write: broken pipe").

End sample.

(** * Facts *)

(** ** Rounding *)

Module float64_facts.
Import float64.

Lemma rne_ge N D k : 0 < D -> k * D <= N -> k <= rne N D.
Proof.
  intros HD Hk. unfold rne.
  pose proof (Z.div_mod N D ltac:(lia)) as E.
  pose proof (Z.mod_pos_bound N D HD) as B.
  assert (k <= N / D) by nia.
  repeat case_match; lia.
Qed.

Lemma rne_le N D k : 0 < D -> N <= k * D -> rne N D <= k.
Proof.
  intros HD Hk. unfold rne.
  pose proof (Z.div_mod N D ltac:(lia)) as E.
  pose proof (Z.mod_pos_bound N D HD) as B.
  repeat case_match; try nia.
Qed.

Lemma rne_lt N D k : 0 < D -> 2 * N < (2 * k + 1) * D -> rne N D <= k.
Proof.
  intros HD Hk. unfold rne.
  pose proof (Z.div_mod N D ltac:(lia)) as E.
  pose proof (Z.mod_pos_bound N D HD) as B.
  repeat case_match; try nia.
Qed.

Lemma rne_err N D : 0 < D -> 2 * (rne N D * D - N) <= D /\ 2 * (N - rne N D * D) <= D.
Proof.
  intros HD. unfold rne.
  pose proof (Z.div_mod N D ltac:(lia)) as E.
  pose proof (Z.mod_pos_bound N D HD) as B.
  repeat case_match; try nia.
Qed.

(** Below 2^53 the last place is at a non-positive exponent [-s]. *)
Lemma ulp_exp_spec n d :
  0 < n -> 0 < d -> n < 2 ^ 53 * d ->
  exists s, ulp_exp n d = - s /\ 0 <= s /\
            2 ^ 52 * d <= n * 2 ^ s < 2 ^ 53 * d.
Proof.
  intros Hn Hd Hlt. unfold ulp_exp.
  destruct (Z.log2_spec n Hn) as [Hn1 Hn2].
  destruct (Z.log2_spec d Hd) as [Hd1 Hd2].
  pose proof (Z.log2_nonneg n) as Ln. pose proof (Z.log2_nonneg d) as Ld.
  set (ln := Z.log2 n) in *. set (ld := Z.log2 d) in *.
  replace (Z.succ ln) with (ln + 1) in Hn2 by lia.
  replace (Z.succ ld) with (ld + 1) in Hd2 by lia.
  rewrite Z.pow_add_r in Hn2, Hd2 by lia. change (2 ^ 1) with 2 in *.
  assert (0 < 2 ^ ln) by (apply Z.pow_pos_nonneg; lia).
  assert (0 < 2 ^ ld) by (apply Z.pow_pos_nonneg; lia).
  destruct (Z_le_gt_dec (ln - ld - 52) 0) as [Hk | Hk].
  - rewrite (Z.max_l 0 (ln - ld - 52)) by lia.
    rewrite (Z.max_r 0 (- (ln - ld - 52))) by lia.
    change (2 ^ 0) with 1. rewrite Z.mul_1_r.
    assert (E : 2 ^ ln * 2 ^ (- (ln - ld - 52)) = 2 ^ 52 * 2 ^ ld).
    { rewrite <- !Z.pow_add_r by lia. f_equal. lia. }
    assert (0 < 2 ^ (- (ln - ld - 52))) by (apply Z.pow_pos_nonneg; lia).
    set (W := 2 ^ (- (ln - ld - 52))) in *.
    destruct (Z.leb_spec (2 ^ 52 * d) (n * W)) as [T | T].
    + exists (- (ln - ld - 52)). fold W. split; [lia|]. split; [lia|]. split; [lia|].
      assert (n * W < 2 ^ ln * 2 * W) by (apply Z.mul_lt_mono_pos_r; lia).
      change (2 ^ 53) with (2 * 2 ^ 52). lia.
    + exists (- (ln - ld - 52) + 1). split; [lia|]. split; [lia|].
      rewrite Z.pow_add_r by lia. change (2 ^ 1) with 2. fold W.
      assert (2 ^ ln * W <= n * W) by (apply Z.mul_le_mono_nonneg_r; lia).
      change (2 ^ 53) with (2 * 2 ^ 52). lia.
  - assert (E : 2 ^ ln = 2 ^ (ln - ld - 53) * (2 ^ 53 * 2 ^ ld)).
    { rewrite <- !Z.pow_add_r by lia. f_equal. lia. }
    assert (ln - ld - 53 = 0).
    { destruct (Z_le_gt_dec (ln - ld - 53) 0); [lia|].
      assert (2 ^ 1 <= 2 ^ (ln - ld - 53)) by (apply Z.pow_le_mono_r; lia).
      change (2 ^ 1) with 2 in *.
      assert (2 * (2 ^ 53 * 2 ^ ld) <= 2 ^ (ln - ld - 53) * (2 ^ 53 * 2 ^ ld))
        by (apply Z.mul_le_mono_nonneg_r; lia).
      lia. }
    rewrite (Z.max_r 0 (ln - ld - 52)) by lia.
    rewrite (Z.max_l 0 (- (ln - ld - 52))) by lia.
    replace (ln - ld - 52) with 1 by lia.
    change (2 ^ 0) with 1. change (2 ^ 1) with 2.
    replace (ln - ld - 53) with 0 in E by lia. change (2 ^ 0) with 1 in E.
    destruct (Z.leb_spec (2 ^ 52 * (d * 2)) (n * 1)) as [T | T]; [lia|].
    exists 0. change (2 ^ 0) with 1. split; [lia|]. split; [lia|].
    change (2 ^ 53) with (2 * 2 ^ 52) in *. lia.
Qed.

Lemma round_pos_spec n d :
  0 < n -> 0 < d -> n < 2 ^ 53 * d ->
  exists s, 0 <= s /\ 2 ^ 52 * d <= n * 2 ^ s < 2 ^ 53 * d /\
            round_pos n d = mk (rne (n * 2 ^ s) d) (2 ^ s).
Proof.
  intros Hn Hd Hlt. destruct (ulp_exp_spec n d Hn Hd Hlt) as (s & E & Hs & B).
  exists s. split; [done|]. split; [done|].
  unfold round_pos. rewrite E.
  rewrite (Z.max_l 0 (- s)) by lia. rewrite Z.opp_involutive, (Z.max_r 0 s) by lia.
  change (2 ^ 0) with 1. by rewrite !Z.mul_1_r.
Qed.
End float64_facts.

(** ** Whole seconds of a duration *)

Module time_facts.
Import float64 float64_facts.

Lemma round_int i : 0 <= i < 2 ^ 53 -> trunc (round i 1) = i.
Proof.
  intros Hi. unfold round. destruct (Z.eqb_spec i 0) as [-> | Hne]; [done|].
  destruct (Z.ltb_spec i 0); [lia|].
  destruct (round_pos_spec i 1) as (s & Hs & B & ->); [lia..|].
  assert (0 < 2 ^ s) by (apply Z.pow_pos_nonneg; lia).
  unfold trunc; cbn [fnum fden].
  assert (rne (i * 2 ^ s) 1 = i * 2 ^ s) as ->.
  { apply Z.le_antisymm; [apply rne_le | apply rne_ge]; lia. }
  rewrite Z.quot_mul; lia.
Qed.

(** The value [Seconds] computes for a non-negative duration. *)
Lemma Seconds_nonneg d :
  0 <= d < 2 ^ 63 ->
  time.Seconds d =
    let c := round (d mod 1000000000) 1000000000 in
    round (d / 1000000000 * fden c + fnum c) (fden c).
Proof.
  intros Hd. unfold time.Seconds, time.Second.
  rewrite Z.quot_div_nonneg, Z.rem_mod_nonneg by lia.
  pose proof (Z.mod_pos_bound d 1000000000 ltac:(lia)) as Hm.
  assert (0 <= d / 1000000000 < 2 ^ 34).
  { split; [apply Z.div_pos; lia|]. apply Z.div_lt_upper_bound; lia. }
  unfold of_int.
  rewrite !(proj2 (Z.ltb_lt _ _)) by lia.
  unfold add, div; cbn [fnum fden]. cbv zeta.
  by rewrite !Z.mul_1_r, !Z.mul_1_l.
Qed.

Lemma frac_round n :
  0 < n < 1000000000 ->
  exists a b, round n 1000000000 = mk a b /\
              2 ^ 52 < b /\ 0 < a /\
              a * 1000000000 <= n * b + 500000000.
Proof.
  intros Hn. unfold round.
  destruct (Z.eqb_spec n 0); [lia|]. destruct (Z.ltb_spec n 0); [lia|].
  destruct (round_pos_spec n 1000000000) as (s & Hs & B & ->); [lia..|].
  assert (0 < 2 ^ s) by (apply Z.pow_pos_nonneg; lia).
  eexists _, _. split; [done|].
  pose proof (rne_err (n * 2 ^ s) 1000000000 ltac:(lia)) as [E1 E2].
  pose proof (rne_ge (n * 2 ^ s) 1000000000 (2 ^ 52) ltac:(lia) ltac:(lia)).
  repeat split; nia.
Qed.

Section whole_seconds.

Variable d : Z.
Hypothesis Hd : 0 <= d < 2 ^ 63.

Local Abbreviation sec := (d / 1000000000).
Local Abbreviation nsec := (d mod 1000000000).

Lemma trunc_Seconds_bounds :
  sec <= trunc (time.Seconds d) <= sec + 1.
Proof.
  rewrite Seconds_nonneg by done. cbv zeta. 
  pose proof (Z.mod_pos_bound d 1000000000 ltac:(lia)) as Hm.
  assert (Hsec : 0 <= sec < 2 ^ 34).
  { split; [apply Z.div_pos; lia|]. apply Z.div_lt_upper_bound; lia. }
  destruct (Z.eq_dec nsec 0) as [E0 | Hne].
  - rewrite E0. change (round 0 1000000000) with (mk 0 1). cbn [fnum fden].
    rewrite Z.mul_1_r, Z.add_0_r, round_int; lia.
  - destruct (frac_round nsec ltac:(lia)) as (a & b & -> & Hb & Ha & Hab).
    cbn [fnum fden].
    assert (a <= b) by nia.
    unfold round.
    destruct (Z.eqb_spec (sec * b + a) 0); [nia|].
    destruct (Z.ltb_spec (sec * b + a) 0); [nia|].
    destruct (round_pos_spec (sec * b + a) b) as (s & Hs & B & ->); [nia..|].
    assert (0 < 2 ^ s) by (apply Z.pow_pos_nonneg; lia).
    unfold trunc; cbn [fnum fden].
    pose proof (rne_ge ((sec * b + a) * 2 ^ s) b (sec * 2 ^ s) ltac:(lia) ltac:(nia)).
    pose proof (rne_le ((sec * b + a) * 2 ^ s) b ((sec + 1) * 2 ^ s) ltac:(lia) ltac:(nia)).
    rewrite Z.quot_div_nonneg by nia.
    split.
    + apply Z.div_le_lower_bound; lia.
    + apply Z.div_le_upper_bound; lia.
Qed.

Lemma trunc_Seconds_whole :
  nsec = 0 -> trunc (time.Seconds d) = sec.
Proof.
  intros E0. rewrite Seconds_nonneg by done. cbv zeta. 
  assert (Hsec : 0 <= sec < 2 ^ 34).
  { split; [apply Z.div_pos; lia|]. apply Z.div_lt_upper_bound; lia. }
  rewrite E0. change (round 0 1000000000) with (mk 0 1). cbn [fnum fden].
  rewrite Z.mul_1_r, Z.add_0_r, round_int; lia.
Qed.

Lemma trunc_Seconds_exact :
  d < 2 ^ 24 * 1000000000 -> trunc (time.Seconds d) = sec.
Proof.
  intros Hlt.
  destruct (Z.eq_dec nsec 0) as [E0 | Hne]; [by apply trunc_Seconds_whole|].
  rewrite Seconds_nonneg by done. cbv zeta. 
  pose proof (Z.mod_pos_bound d 1000000000 ltac:(lia)) as Hm.
  assert (Hsec : 0 <= sec < 2 ^ 24).
  { split; [apply Z.div_pos; lia|]. apply Z.div_lt_upper_bound; lia. }
  destruct (frac_round nsec ltac:(lia)) as (a & b & -> & Hb & Ha & Hab).
  cbn [fnum fden].
  assert (Hgap : b - 500000000 <= (b - a) * 1000000000) by nia.
  assert (a < b) by nia.
  unfold round.
  destruct (Z.eqb_spec (sec * b + a) 0); [nia|].
  destruct (Z.ltb_spec (sec * b + a) 0); [nia|].
  destruct (round_pos_spec (sec * b + a) b) as (s & Hs & B & ->); [nia..|].
  assert (0 < 2 ^ s) by (apply Z.pow_pos_nonneg; lia).
  assert (Hs29 : 2 ^ 29 <= 2 ^ s).
  { apply Z.pow_le_mono_r; [lia|].
    destruct (Z_le_gt_dec 29 s); [done|].
    assert (2 ^ s <= 2 ^ 28) by (apply Z.pow_le_mono_r; lia). nia. }
  unfold trunc; cbn [fnum fden].
  pose proof (rne_ge ((sec * b + a) * 2 ^ s) b (sec * 2 ^ s) ltac:(lia) ltac:(nia)).
  assert (rne ((sec * b + a) * 2 ^ s) b <= (sec + 1) * 2 ^ s - 1).
  { apply rne_lt; [lia|]. nia. }
  rewrite Z.quot_div_nonneg by nia.
  apply Z.le_antisymm.
  - assert (rne ((sec * b + a) * 2 ^ s) b / 2 ^ s < sec + 1); [|lia].
    apply Z.div_lt_upper_bound; lia.
  - apply Z.div_le_lower_bound; lia.
Qed.

End whole_seconds.
End time_facts.

(** ** Durations and the remaining TTL *)

Lemma wrap64_id z : - 2 ^ 63 <= z < 2 ^ 63 -> Go.wrap64 z = z.
Proof. intros H. unfold Go.wrap64. rewrite Z.mod_small; lia. Qed.

Lemma ttlDuration_seconds ttl :
  0 <= ttl < 2 ^ 32 -> ttlDuration ttl = ttl * time.Second.
Proof.
  intros H. unfold ttlDuration, time.Second.
  rewrite (wrap64_id ttl) by lia. apply wrap64_id. lia.
Qed.

Lemma Sub_exact e t :
  - 2 ^ 63 <= e - t < 2 ^ 63 -> time.Sub e t = e - t.
Proof.
  intros H. unfold time.Sub, Go.minInt64, Go.maxInt64.
  destruct (Z.ltb_spec (e - t) (- 2 ^ 63)); [lia|].
  destruct (Z.ltb_spec (2 ^ 63 - 1) (e - t)); lia.
Qed.

(** Up to the inserted TTL, whatever the rounding. *)
Lemma remaining_le e t ttl :
  0 <= ttl < 2 ^ 32 -> 0 <= e - t <= ttl * time.Second ->
  0 <= remaining e t <= ttl.
Proof.
  unfold time.Second. intros Httl Hd. unfold remaining, float64.to_uint32, Go.low32.
  rewrite Sub_exact by lia.
  pose proof (time_facts.trunc_Seconds_bounds (e - t) ltac:(lia)) as [Hlo Hhi].
  assert (0 <= (e - t) / 1000000000) by (apply Z.div_pos; lia).
  assert (float64.trunc (time.Seconds (e - t)) <= ttl).
  { destruct (Z.eq_dec (e - t) (ttl * 1000000000)) as [E | NE].
    - rewrite time_facts.trunc_Seconds_whole; rewrite E.
      + rewrite Z.div_mul; lia.
      + lia.
      + apply Z.mod_mul; lia.
    - assert ((e - t) / 1000000000 < ttl) by (apply Z.div_lt_upper_bound; lia).
      lia. }
  rewrite Z.mod_small; lia.
Qed.

(** The whole seconds, for less than 2^24 of them. *)
Lemma remaining_exact e t :
  0 <= e - t < 2 ^ 24 * time.Second ->
  remaining e t = (e - t) / time.Second.
Proof.
  unfold time.Second. intros Hd. unfold remaining, float64.to_uint32, Go.low32.
  rewrite Sub_exact by lia.
  rewrite time_facts.trunc_Seconds_exact by lia.
  apply Z.mod_small. split; [apply Z.div_pos; lia|].
  apply Z.div_lt_upper_bound; lia.
Qed.

(** ** The store *)

Lemma Get_absent c k clk n :
  cache.items c !! k = None ->
  cache.GetWithExpiration c k clk n = ((Nil, time.zeroTime, false), n).
Proof. intros H. unfold cache.GetWithExpiration. by rewrite H. Qed.

Lemma Get_expired c k item clk n :
  cache.items c !! k = Some item ->
  0 < cache.Expiration item < time.UnixNano (clk n) ->
  cache.GetWithExpiration c k clk n = ((Nil, time.zeroTime, false), S n).
Proof.
  intros H [H1 H2]. unfold cache.GetWithExpiration. rewrite H. cbn.
  rewrite (proj2 (Z.ltb_lt _ _) H1). cbn.
  by rewrite (proj2 (Z.ltb_lt _ _) H2).
Qed.

Lemma Get_live c k item clk n :
  cache.items c !! k = Some item ->
  0 < cache.Expiration item -> time.UnixNano (clk n) <= cache.Expiration item ->
  cache.GetWithExpiration c k clk n =
    ((cache.Object item, cache.Expiration item, true), S n).
Proof.
  intros H H1 H2. unfold cache.GetWithExpiration. rewrite H. cbn.
  rewrite (proj2 (Z.ltb_lt _ _) H1). cbn.
  by rewrite (proj2 (Z.ltb_ge _ _) H2).
Qed.

(** A lookup that finds the key returns the object stored under it. *)
Lemma Get_found c k clk n mem expr n' :
  cache.GetWithExpiration c k clk n = ((mem, expr, true), n') ->
  exists item, cache.items c !! k = Some item /\ cache.Object item = mem /\
    expr = (if 0 <? cache.Expiration item
            then cache.Expiration item else time.zeroTime).
Proof.
  unfold cache.GetWithExpiration.
  destruct (cache.items c !! k) as [item|]; [|done].
  intros H. exists item. split; [done|].
  destruct (0 <? cache.Expiration item); cbn in H.
  - destruct (cache.Expiration item <? time.UnixNano (clk n)); [done|].
    by inversion H.
  - by inversion H.
Qed.

Lemma Set_lookup c k x d clk n :
  cache.items (cache.Set_ c k x d clk n).1 !! k =
    Some (cache.mkItem x
            (let d := if d =? cache.DefaultExpiration
                      then cache.defaultExpiration c else d in
             if 0 <? d then time.UnixNano (time.Add (clk n) d) else 0)).
Proof.
  unfold cache.Set_. cbv zeta.
  destruct (0 <? _); cbn; by rewrite lookup_insert_eq.
Qed.

Lemma Set_defaultExpiration c k x d clk n :
  cache.defaultExpiration (cache.Set_ c k x d clk n).1 = cache.defaultExpiration c.
Proof. unfold cache.Set_. cbv zeta. by destruct (0 <? _). Qed.

(** ** The two paths of [resolveOverTLS] *)

Ltac run :=
  cbv beta iota zeta delta
    [mbind M_bind mret M_ret get_inmem put_inmem with_clock Exchange
     WriteMsg emit ask panic assert_Answer first];
  cbn [inmem reads trace].

Lemma resolveOverTLS_hit env w domain dnsServer a expr n :
  cache.GetWithExpiration (inmem w) domain (now env) (reads w)
    = ((OfAnswer a, expr, true), n) ->
  resolveOverTLS domain dnsServer env w =
    (Ret (mkAnswer (ip a) (remaining expr (now env n)), true, None),
     mkWorld (inmem w) (S n) (trace w)).
Proof.
  intros H. unfold resolveOverTLS. run. by rewrite H.
Qed.

Lemma resolveOverTLS_miss env w domain dnsServer mem expr n :
  cache.GetWithExpiration (inmem w) domain (now env) (reads w)
    = ((mem, expr, false), n) ->
  resolveOverTLS domain dnsServer env w =
    let w1 := mkWorld (inmem w) n
                (trace w ++ [Exchanged (question env domain) dnsServer]) in
    match upstream env (question env domain) dnsServer with
    | inr err =>
        (Ret (zeroAnswer, false, Some (String.append "DNS query error: " err)),
         w1)
    | inl in_ =>
        match dns.Answer in_ with
        | [] => (Ret (zeroAnswer, false, None), stored env w1 domain zeroAnswer)
        | dns.A hdr a :: _ =>
            let answer := mkAnswer (IP_String env a) (dns.Ttl hdr) in
            (Ret (answer, false, None), stored env w1 domain answer)
        | dns.Other _ _ :: _ =>
            (Ret (zeroAnswer, false, Some "DNS query error"), w1)
        end
    end.
Proof.
  intros H. unfold resolveOverTLS. run. rewrite H. cbv zeta.
  unfold question, stored. cbn [inmem reads trace].
  destruct (upstream env _ dnsServer) as [in_ | err]; [|done].
  destruct (dns.Answer in_) as [|[hdr a | hdr rd] rest]; try done.
  - by destruct (cache.Set_ _ _ _ _ _ _).
  - cbn [ttl]. by destruct (cache.Set_ _ _ _ _ _ _).
Qed.

(** ** The paths of [ServeDNS] *)

Lemma ServeDNS_no_question w r env wd :
  dns.Question_ r = [] ->
  ServeDNS w r env wd =
    (Ret tt, mkWorld (inmem wd) (reads wd) (trace wd ++ [notImplementedLog])).
Proof. intros H. unfold ServeDNS. rewrite H. reflexivity. Qed.

Lemma ServeDNS_other_type w r env wd q qs :
  dns.Question_ r = q :: qs -> dns.Qtype q <> dns.TypeA ->
  ServeDNS w r env wd =
    (Ret tt, mkWorld (inmem wd) (reads wd)
                     (trace wd ++ [requestLog w q; notImplementedLog])).
Proof.
  intros H Hq. unfold ServeDNS. rewrite H. cbn [length Nat.ltb Nat.leb].
  run. rewrite (proj2 (Z.eqb_neq _ _) Hq). run.
  by rewrite <- app_assoc.
Qed.

Lemma SetReply_Question r q qs :
  dns.Question_ r = q :: qs ->
  dns.Question_ (dns.SetReply dns.zeroMsg r) = [q].
Proof. intros H. unfold dns.SetReply. by rewrite H. Qed.

Lemma ServeDNS_typeA w r env wd q qs o w2 :
  dns.Question_ r = q :: qs -> dns.Qtype q = dns.TypeA ->
  resolveOverTLS (dns.Name q) (resolver env) env
    (mkWorld (inmem wd) (reads wd) (trace wd ++ [requestLog w q])) = (o, w2) ->
  ServeDNS w r env wd =
    match o with
    | Ret (answer, useCache, err) =>
        (Ret tt,
         mkWorld (inmem w2) (reads w2)
                 (trace w2 ++ served env w r (dns.Name q) answer useCache err))
    | Panic reason => (Panic reason, w2)
    end.
Proof.
  intros H Hq Hres. unfold ServeDNS.
  rewrite (SetReply_Question r q qs H), H. cbn [length Nat.ltb Nat.leb].
  run. rewrite (proj2 (Z.eqb_eq _ _) Hq). run.
  fold (requestLog w q). rewrite Hres.
  destruct o as [[[answer uc] err]|reason]; [|done].
  unfold served. fold (reply env r (dns.Name q) answer).
  destruct err as [e|], (dns.WriteMsg_err w _) as [e'|]; cbn [inmem reads trace];
    by rewrite <- ?app_assoc.
Qed.

(** ** What a call leaves behind *)

Lemma replies_app tr1 tr2 : replies (tr1 ++ tr2) = replies tr1 ++ replies tr2.
Proof. apply omap_app. Qed.

Lemma exchanges_app tr1 tr2 :
  exchanges (tr1 ++ tr2) = exchanges tr1 ++ exchanges tr2.
Proof. apply omap_app. Qed.

Lemma stored_trace env w domain answer :
  trace (stored env w domain answer) = trace w.
Proof. unfold stored. by destruct (cache.Set_ _ _ _ _ _ _). Qed.

Lemma stored_inmem env w domain answer :
  inmem (stored env w domain answer) =
    (cache.Set_ (inmem w) domain (OfAnswer answer) (ttlDuration (ttl answer))
                (now env) (reads w)).1.
Proof. unfold stored. by destruct (cache.Set_ _ _ _ _ _ _). Qed.

(** The lookup that opens [resolveOverTLS], by cases. *)
Lemma Get_cases c k clk n :
  (exists mem expr n', cache.GetWithExpiration c k clk n = ((mem, expr, false), n'))
  \/ (exists item n',
        cache.items c !! k = Some item /\
        cache.GetWithExpiration c k clk n
          = ((cache.Object item,
              if 0 <? cache.Expiration item
              then cache.Expiration item else time.zeroTime, true), n')).
Proof.
  unfold cache.GetWithExpiration.
  destruct (cache.items c !! k) as [item|]; [|left; by eexists _, _, _].
  destruct (0 <? cache.Expiration item) eqn:E0; cbn.
  - destruct (cache.Expiration item <? time.UnixNano (clk n)).
    + left. by eexists _, _, _.
    + right. exists item, (S n). by rewrite E0.
  - right. exists item, n. by rewrite E0.
Qed.

(** [resolveOverTLS] writes nothing to a client, and only adds to the
    trace. *)
Lemma resolveOverTLS_trace domain dnsServer env w :
  exists evs, trace (resolveOverTLS domain dnsServer env w).2 = trace w ++ evs
              /\ replies evs = [].
Proof.
  destruct (Get_cases (inmem w) domain (now env) (reads w))
    as [(mem & expr & n' & E) | (item & n' & _ & E)].
  - rewrite (resolveOverTLS_miss _ _ _ _ _ _ _ E). cbv zeta.
    exists [Exchanged (question env domain) dnsServer]. split; [|done].
    destruct (upstream env _ dnsServer) as [in_ | err]; [|done].
    destruct (dns.Answer in_) as [|[hdr a | hdr rd] rest];
      cbn [snd]; by rewrite ?stored_trace.
  - exists []. split; [|done]. rewrite app_nil_r.
    unfold resolveOverTLS. run. rewrite E.
    by destruct (cache.Object item).
Qed.

(** On a miss the call returns, with [useCache = false]. *)
Lemma resolveOverTLS_miss_useCache domain dnsServer env w :
  found env w domain = false ->
  useCache (resolveOverTLS domain dnsServer env w).1 = Some false.
Proof.
  unfold found. intros Hf.
  destruct (cache.GetWithExpiration _ _ _ _) as [[[mem expr] f] n] eqn:E.
  cbn in Hf. subst f.
  rewrite (resolveOverTLS_miss _ _ _ _ _ _ _ E). cbv zeta.
  destruct (upstream env _ dnsServer) as [in_ | err]; [|done].
  by destruct (dns.Answer in_) as [|[hdr a | hdr rd] rest].
Qed.

(** ** The store only holds answers *)

Lemma answers_only_init : answers_only inmem0.
Proof. intros k item H. cbn in H. by rewrite lookup_empty in H. Qed.

Lemma answers_only_Set c k a d clk n :
  answers_only c -> answers_only (cache.Set_ c k (OfAnswer a) d clk n).1.
Proof.
  intros Hc k' item. unfold cache.Set_. cbv zeta.
  destruct (0 <? _); cbn; rewrite lookup_insert; case_decide;
    try (intros [= <-]; by eexists); apply Hc.
Qed.

Lemma answers_only_DeleteExpired c clk n :
  answers_only c -> answers_only (cache.DeleteExpired c clk n).1.
Proof.
  intros Hc k item. unfold cache.DeleteExpired. cbn.
  rewrite map_lookup_filter_Some. intros [H _]. by apply (Hc k).
Qed.

Lemma answers_only_resolveOverTLS domain dnsServer env w :
  answers_only (inmem w) ->
  answers_only (inmem (resolveOverTLS domain dnsServer env w).2)
  /\ exists res, (resolveOverTLS domain dnsServer env w).1 = Ret res.
Proof.
  intros Hc.
  destruct (Get_cases (inmem w) domain (now env) (reads w))
    as [(mem & expr & n' & E) | (item & n' & Hit & E)].
  - rewrite (resolveOverTLS_miss _ _ _ _ _ _ _ E). cbv zeta.
    destruct (upstream env _ dnsServer) as [in_ | err]; [|by eauto].
    destruct (dns.Answer in_) as [|[hdr a | hdr rd] rest]; cbn [fst snd];
      rewrite ?stored_inmem; (split; [|by eauto]);
      try apply answers_only_Set; done.
  - destruct (Hc _ _ Hit) as [a Ha]. rewrite Ha in E.
    rewrite (resolveOverTLS_hit _ _ _ _ _ _ _ E). by eauto.
Qed.

Lemma answers_only_ServeDNS w r env wd :
  answers_only (inmem wd) -> answers_only (inmem (ServeDNS w r env wd).2).
Proof.
  intros Hc. destruct (dns.Question_ r) as [|q qs] eqn:Hq.
  - by rewrite ServeDNS_no_question.
  - destruct (Z.eq_dec (dns.Qtype q) dns.TypeA) as [HA | HA].
    + destruct (resolveOverTLS (dns.Name q) (resolver env) env
                  (mkWorld (inmem wd) (reads wd) (trace wd ++ [requestLog w q])))
        as [o w2] eqn:Hres.
      pose proof (answers_only_resolveOverTLS (dns.Name q) (resolver env) env
                    (mkWorld (inmem wd) (reads wd) (trace wd ++ [requestLog w q])) Hc)
        as [Hinv _].
      rewrite Hres in Hinv. cbn [snd] in Hinv.
      rewrite (ServeDNS_typeA _ _ _ _ _ _ _ _ Hq HA Hres).
      by destruct o as [[[answer uc] err]|reason].
    + by rewrite (ServeDNS_other_type _ _ _ _ _ _ Hq HA).
Qed.

Lemma reachable_answers_only c : reachable c -> answers_only c.
Proof.
  induction 1 as [|c env n tr w r o w' _ IH Hrun
                  |c env n tr domain dnsServer o w' _ IH Hrun
                  |c env n tr domain answer _ IH
                  |c clk n _ IH].
  - apply answers_only_init.
  - pose proof (answers_only_ServeDNS w r env (mkWorld c n tr) IH) as Hinv.
    by rewrite Hrun in Hinv.
  - pose proof (answers_only_resolveOverTLS domain dnsServer env
                  (mkWorld c n tr) IH) as [Hinv _].
    by rewrite Hrun in Hinv.
  - rewrite stored_inmem. by apply answers_only_Set.
  - by apply answers_only_DeleteExpired.
Qed.

(** From a store that only holds answers the handler returns. *)
Lemma ServeDNS_returns w r env wd :
  answers_only (inmem wd) -> (ServeDNS w r env wd).1 = Ret tt.
Proof.
  intros Hc. destruct (dns.Question_ r) as [|q qs] eqn:Hq.
  - by rewrite ServeDNS_no_question.
  - destruct (Z.eq_dec (dns.Qtype q) dns.TypeA) as [HA | HA].
    + destruct (resolveOverTLS (dns.Name q) (resolver env) env
                  (mkWorld (inmem wd) (reads wd) (trace wd ++ [requestLog w q])))
        as [o w2] eqn:Hres.
      pose proof (answers_only_resolveOverTLS (dns.Name q) (resolver env) env
                    (mkWorld (inmem wd) (reads wd) (trace wd ++ [requestLog w q])) Hc)
        as [_ [res Hret]].
      rewrite Hres in Hret. cbn [fst] in Hret. subst o.
      rewrite (ServeDNS_typeA _ _ _ _ _ _ _ _ Hq HA Hres).
      by destruct res as [[answer uc] err].
    + by rewrite (ServeDNS_other_type _ _ _ _ _ _ Hq HA).
Qed.

(** * The claims *)

(** ** C7: a message without a question *)

(** C7. For every inbound message with zero questions the handler returns
    without a panic, writes no reply to the client and logs the event:
    the one thing it adds to the trace is the error record "Not
    implemented yet", and the store is left as it was. *)
Theorem ServeDNS_no_question_no_reply w r env wd :
  dns.Question_ r = [] ->
  exists wd',
    ServeDNS w r env wd = (Ret tt, wd') /\
    trace wd' = trace wd ++ [notImplementedLog] /\
    replies (trace wd') = replies (trace wd) /\
    inmem wd' = inmem wd.
Proof.
  intros H. eexists. split; [by apply ServeDNS_no_question|].
  cbn [trace inmem]. rewrite replies_app, app_nil_r. done.
Qed.

Lemma ServeDNS_no_question_no_reply_witness :
  dns.Question_ (sample.query []) = [] /\
  exists wd',
    ServeDNS sample.writer (sample.query []) (sample.env 1 sample.timeout)
             sample.start = (Ret tt, wd') /\
    trace wd' = trace sample.start ++ [notImplementedLog] /\
    replies (trace wd') = replies (trace sample.start) /\
    inmem wd' = inmem sample.start.
Proof.
  split; [reflexivity|].
  apply (ServeDNS_no_question_no_reply sample.writer (sample.query [])).
  reflexivity.
Defined.

(** ** C2: a question of another type *)

(** C2, as stated, fails: the query for the AAAA record of example.com.
    has a question that is not of type A, and no reply at all is written
    to the client, so none with an empty answer section is. *)
Lemma ServeDNS_other_type_reply_counterexample :
  let r := sample.query [sample.qAAAA] in
  let run := ServeDNS sample.writer r (sample.env 1 sample.timeout)
                      sample.start in
  (exists q, q ∈ dns.Question_ r /\ dns.Qtype q <> dns.TypeA) /\
  ~ (exists m, m ∈ replies (trace run.2) /\ dns.Answer m = []).
Proof.
  cbv zeta. split.
  - exists sample.qAAAA. split; [apply list_elem_of_here | discriminate].
  - intros (m & Hm & _). vm_compute in Hm. by apply not_elem_of_nil in Hm.
Qed.

(** C2, amended. For every inbound query whose first question is not of
    type A the handler returns without a panic, logs the request and the
    error record "Not implemented yet", and writes no reply to the
    client; the store is left as it was. *)
Theorem ServeDNS_other_type_no_reply w r env wd q qs :
  dns.Question_ r = q :: qs -> dns.Qtype q <> dns.TypeA ->
  exists wd',
    ServeDNS w r env wd = (Ret tt, wd') /\
    trace wd' = trace wd ++ [requestLog w q; notImplementedLog] /\
    replies (trace wd') = replies (trace wd) /\
    inmem wd' = inmem wd.
Proof.
  intros H Hq. eexists. split; [by apply (ServeDNS_other_type _ _ _ _ q qs)|].
  cbn [trace inmem]. rewrite replies_app, app_nil_r. done.
Qed.

Lemma ServeDNS_other_type_no_reply_witness :
  dns.Question_ (sample.query [sample.qAAAA]) = [sample.qAAAA] /\
  dns.Qtype sample.qAAAA <> dns.TypeA /\
  exists wd',
    ServeDNS sample.writer (sample.query [sample.qAAAA])
             (sample.env 1 sample.timeout) sample.start = (Ret tt, wd') /\
    trace wd' = trace sample.start
                  ++ [requestLog sample.writer sample.qAAAA; notImplementedLog] /\
    replies (trace wd') = replies (trace sample.start) /\
    inmem wd' = inmem sample.start.
Proof.
  split; [reflexivity|]. split; [discriminate|].
  apply (ServeDNS_other_type_no_reply sample.writer
           (sample.query [sample.qAAAA]) _ _ sample.qAAAA []);
    [reflexivity | discriminate].
Defined.

(** ** C1: a failed resolution *)

(** Whenever [resolveOverTLS] returns an error for a question of type A,
    the error is logged and the reply that is written carries one answer
    record, built from the answer returned with the error. *)
Lemma ServeDNS_failed_resolution w r env wd q qs answer uc e w2 :
  dns.Question_ r = q :: qs -> dns.Qtype q = dns.TypeA ->
  resolveOverTLS (dns.Name q) (resolver env) env
    (mkWorld (inmem wd) (reads wd) (trace wd ++ [requestLog w q]))
    = (Ret (answer, uc, Some e), w2) ->
  exists wd',
    ServeDNS w r env wd = (Ret tt, wd') /\
    Log InfoLevel [] e ∈ trace wd' /\
    replies (trace wd') = replies (trace wd) ++ [reply env r (dns.Name q) answer] /\
    dns.Answer (reply env r (dns.Name q) answer) =
      [dns.A (dns.mkHeader (dns.Name q) dns.TypeA dns.ClassINET (ttl answer) 0)
             (ParseIP env (ip answer))].
Proof.
  intros H Hq Hres. eexists. split.
  { by rewrite (ServeDNS_typeA _ _ _ _ _ _ _ _ H Hq Hres). }
  cbn [trace].
  pose proof (resolveOverTLS_trace (dns.Name q) (resolver env) env
                (mkWorld (inmem wd) (reads wd) (trace wd ++ [requestLog w q])))
    as (evs & Htr & Hevs).
  rewrite Hres in Htr. cbn [snd trace] in Htr.
  split; [|split].
  - apply elem_of_app. right. unfold served. apply list_elem_of_here.
  - rewrite Htr, !replies_app, Hevs. unfold served.
    rewrite !replies_app.
    destruct (dns.WriteMsg_err w _); cbn; by rewrite !app_nil_r.
  - unfold reply, dns.SetReply. rewrite H. reflexivity.
Qed.

(** C1, on the code. The question is of type A and the upstream exchange
    times out: the error is logged, and the reply written to the client
    carries one answer record, of TTL 0 and without an address, where
    the claim has none. *)
Theorem ServeDNS_upstream_failure_reply :
  let r := sample.query [sample.qA] in
  let env := sample.env time.Second sample.timeout in
  let run := ServeDNS sample.writer r env sample.start in
  run.1 = Ret tt /\
  Log InfoLevel [] "DNS query error: read tcp: i/o timeout" ∈ trace run.2 /\
  exists m, replies (trace run.2) = [m] /\
    dns.Answer m =
      [dns.A (dns.mkHeader "example.com." dns.TypeA dns.ClassINET 0 0)
             net.nil_IP].
Proof.
  cbv zeta. split; [by vm_compute|]. split.
  - vm_compute. apply list_elem_of_further, list_elem_of_further, list_elem_of_here.
  - eexists. split; by vm_compute.
Qed.

(** ** C8: the reply *)

Lemma SetReply_take r :
  dns.Question_ (dns.SetReply dns.zeroMsg r) = take 1 (dns.Question_ r).
Proof. unfold dns.SetReply. by destruct (dns.Question_ r). Qed.

Lemma SetReply_Id r : dns.Id (dns.Hdr (dns.SetReply dns.zeroMsg r)) = dns.Id (dns.Hdr r).
Proof. unfold dns.SetReply. by destruct (dns.Question_ r). Qed.

Lemma SetReply_Answer r : dns.Answer (dns.SetReply dns.zeroMsg r) = [].
Proof. unfold dns.SetReply. by destruct (dns.Question_ r). Qed.

(** C8, as stated, fails: for the query with the two questions A and
    AAAA of example.com. the reply that is built, and written, has the
    first of them as its question section. *)
Lemma reply_question_section_counterexample :
  let r := sample.query [sample.qA; sample.qAAAA] in
  let env := sample.env time.Second (sample.answers [sample.rrA 300]) in
  let run := ServeDNS sample.writer r env sample.start in
  dns.Question_ (dns.SetReply dns.zeroMsg r) <> dns.Question_ r /\
  exists m, replies (trace run.2) = [m] /\
            dns.Question_ m = [sample.qA] /\
            dns.Question_ m <> dns.Question_ r.
Proof.
  cbv zeta. split; [by vm_compute|].
  eexists. split; [by vm_compute|]. split; by vm_compute.
Qed.

(** C8, amended. For every inbound query, the reply the handler builds
    mirrors the identifier of the query and the first question of its
    question section (the whole section when the query has at most one
    question) and has no answer record; every reply the call writes
    mirrors the same two and carries at most one answer record. *)
Theorem ServeDNS_reply_mirrors w r env wd :
  let msg := dns.SetReply dns.zeroMsg r in
  (dns.Id (dns.Hdr msg) = dns.Id (dns.Hdr r) /\
   dns.Question_ msg = take 1 (dns.Question_ r) /\
   dns.Answer msg = []) /\
  exists evs,
    trace (ServeDNS w r env wd).2 = trace wd ++ evs /\
    Forall (fun m => dns.Id (dns.Hdr m) = dns.Id (dns.Hdr r) /\
                     dns.Question_ m = take 1 (dns.Question_ r) /\
                     (length (dns.Answer m) <= 1)%nat)
           (replies evs).
Proof.
  cbv zeta. split.
  { by rewrite SetReply_Id, SetReply_take, SetReply_Answer. }
  destruct (dns.Question_ r) as [|q qs] eqn:Hq.
  { rewrite ServeDNS_no_question by done. by eexists. }
  destruct (Z.eq_dec (dns.Qtype q) dns.TypeA) as [HA | HA].
  2:{ rewrite (ServeDNS_other_type _ _ _ _ q qs) by done. by eexists. }
  pose proof (resolveOverTLS_trace (dns.Name q) (resolver env) env
                (mkWorld (inmem wd) (reads wd) (trace wd ++ [requestLog w q])))
    as (evs & Htr & Hevs).
  destruct (resolveOverTLS _ _ _ _) as [o w2] eqn:Hres.
  cbn [snd trace] in Htr.
  rewrite (ServeDNS_typeA _ _ _ _ _ _ _ _ Hq HA Hres).
  destruct o as [[[answer uc] err]|reason]; cbn [snd trace].
  - exists ([requestLog w q] ++ evs ++ served env w r (dns.Name q) answer uc err).
    split; [by rewrite Htr, <- !app_assoc|].
    rewrite !replies_app, Hevs. unfold served. rewrite !replies_app.
    assert (replies (match err with Some e => [Log InfoLevel [] e] | None => [] end) = [])
      as -> by (by destruct err).
    assert (replies (match dns.WriteMsg_err w (reply env r (dns.Name q) answer) with
                     | Some e => [Log ErrorLevel [] e] | None => [] end) = [])
      as -> by (by destruct (dns.WriteMsg_err w _)).
    cbn. apply Forall_singleton. unfold reply. cbn.
    rewrite SetReply_Id, SetReply_take, SetReply_Answer, Hq. cbn. by repeat split.
  - exists ([requestLog w q] ++ evs). split; [by rewrite Htr, <- !app_assoc|].
    rewrite replies_app, Hevs. by constructor.
Qed.

(** ** C6: an error from upstream *)

(** C6. For every call of [resolveOverTLS] that misses the store and
    whose upstream exchange ends in a transport error, or in a response
    whose first answer record is not of type A: the call returns an
    error with the zero [Answer], and the store is as before the call. *)
Theorem resolveOverTLS_error_frame env w domain dnsServer :
  found env w domain = false ->
  upstream_fails (upstream env (question env domain) dnsServer) = true ->
  exists e w',
    resolveOverTLS domain dnsServer env w
      = (Ret (zeroAnswer, false, Some e), w') /\
    inmem w' = inmem w.
Proof.
  unfold found. intros Hf Hup.
  destruct (cache.GetWithExpiration _ _ _ _) as [[[mem expr] f] n] eqn:E.
  cbn in Hf. subst f.
  rewrite (resolveOverTLS_miss _ _ _ _ _ _ _ E). cbv zeta.
  destruct (upstream env _ dnsServer) as [in_ | err]; [|by eexists _, _].
  cbn in Hup.
  destruct (dns.Answer in_) as [|[hdr a | hdr rd] rest]; try done.
  by eexists _, _.
Qed.

Lemma resolveOverTLS_error_frame_witness :
  let env := sample.env time.Second (sample.answers [sample.rrCNAME; sample.rrA 300]) in
  found env sample.start "example.com." = false /\
  upstream_fails (upstream env (question env "example.com.") "1.1.1.1:853") = true /\
  exists e w',
    resolveOverTLS "example.com." "1.1.1.1:853" env sample.start
      = (Ret (zeroAnswer, false, Some e), w') /\
    inmem w' = inmem sample.start.
Proof.
  cbv zeta. split; [reflexivity|]. split; [reflexivity|].
  apply (resolveOverTLS_error_frame
           (sample.env time.Second (sample.answers [sample.rrCNAME; sample.rrA 300]))
           sample.start "example.com." "1.1.1.1:853"); reflexivity.
Defined.

(** ** C3: a response without answers *)

(** C3. For every call of [resolveOverTLS] that misses the store and
    receives, without a transport error, a response with no answer
    record: the call returns the zero [Answer] with a nil error, after
    storing that zero [Answer] under the domain by a [Set] whose
    duration is the zero TTL of that answer, zero seconds. *)
Theorem resolveOverTLS_no_answer_stored env w domain dnsServer in_ :
  found env w domain = false ->
  upstream env (question env domain) dnsServer = inl in_ ->
  dns.Answer in_ = [] ->
  exists w',
    resolveOverTLS domain dnsServer env w = (Ret (zeroAnswer, false, None), w') /\
    inmem w' =
      (cache.Set_ (inmem w) domain (OfAnswer (mkAnswer "" 0)) (0 * time.Second)
                  (now env)
                  (cache.GetWithExpiration (inmem w) domain (now env) (reads w)).2).1 /\
    exists e, cache.items (inmem w') !! domain
              = Some (cache.mkItem (OfAnswer (mkAnswer "" 0)) e).
Proof.
  unfold found. intros Hf Hup Hans.
  destruct (cache.GetWithExpiration _ _ _ _) as [[[mem expr] f] n] eqn:E.
  cbn in Hf. subst f.
  rewrite (resolveOverTLS_miss _ _ _ _ _ _ _ E). cbv zeta.
  rewrite Hup, Hans. eexists. split; [done|].
  rewrite stored_inmem. cbn [inmem reads snd ttl zeroAnswer].
  split; [done|]. rewrite Set_lookup. by eexists.
Qed.

Lemma resolveOverTLS_no_answer_stored_witness :
  let env := sample.env time.Second (sample.answers []) in
  found env sample.start "example.com." = false /\
  upstream env (question env "example.com.") "1.1.1.1:853"
    = inl (sample.response []) /\
  dns.Answer (sample.response []) = [] /\
  exists w',
    resolveOverTLS "example.com." "1.1.1.1:853" env sample.start
      = (Ret (zeroAnswer, false, None), w') /\
    inmem w' =
      (cache.Set_ (inmem sample.start) "example.com." (OfAnswer (mkAnswer "" 0))
                  (0 * time.Second) (now env)
                  (cache.GetWithExpiration (inmem sample.start) "example.com."
                                           (now env) (reads sample.start)).2).1 /\
    exists e, cache.items (inmem w') !! "example.com."
              = Some (cache.mkItem (OfAnswer (mkAnswer "" 0)) e).
Proof.
  cbv zeta. split; [reflexivity|]. split; [reflexivity|]. split; [reflexivity|].
  apply (resolveOverTLS_no_answer_stored
           (sample.env time.Second (sample.answers [])) sample.start
           "example.com." "1.1.1.1:853" (sample.response [])); reflexivity.
Defined.

(** With the default expiration of [inmem], one minute, the zero answer
    stays in the store for a minute. *)
Lemma zero_ttl_expiration c k x clk n :
  cache.defaultExpiration c = time.Minute ->
  0 <= clk n < 2 ^ 62 ->
  cache.items (cache.Set_ c k x (ttlDuration 0) clk n).1 !! k
    = Some (cache.mkItem x (clk n + 60 * time.Second)).
Proof.
  intros Hde Hclk. rewrite Set_lookup, Hde.
  change (ttlDuration 0 =? cache.DefaultExpiration) with true.
  change (0 <? time.Minute) with true. cbv iota zeta.
  unfold time.UnixNano, time.Add. rewrite wrap64_id; [done|].
  unfold time.Minute, time.Second. lia.
Qed.

(** ** C9: the type assertion *)

(** C9. In every reachable state of the store each object is an
    [Answer], so a call of [resolveOverTLS] from such a state returns:
    the type assertion on the hit path, its one source of a panic, does
    not fail. *)
Theorem reachable_assertion_holds c :
  reachable c ->
  answers_only c /\
  forall env n tr domain dnsServer,
    exists res,
      (resolveOverTLS domain dnsServer env (mkWorld c n tr)).1 = Ret res.
Proof.
  intros Hc. pose proof (reachable_answers_only c Hc) as Hinv.
  split; [done|]. intros env n tr domain dnsServer.
  by destruct (answers_only_resolveOverTLS domain dnsServer env
                 (mkWorld c n tr) Hinv).
Qed.

Lemma warmed_reachable : reachable (inmem sample.warmed).
Proof.
  unfold sample.warmed.
  eapply (reach_resolve inmem0 _ 0%nat [] _ _ _ _ reach_init).
  apply surjective_pairing.
Defined.

Lemma reachable_assertion_holds_witness :
  reachable (inmem sample.warmed) /\
  answers_only (inmem sample.warmed) /\
  forall env n tr domain dnsServer,
    exists res,
      (resolveOverTLS domain dnsServer env
         (mkWorld (inmem sample.warmed) n tr)).1 = Ret res.
Proof.
  split; [apply warmed_reachable|].
  apply (reachable_assertion_holds (inmem sample.warmed)), warmed_reachable.
Defined.

(** ** C10: a hit *)

Lemma remaining_floor e t :
  0 <= e - t <= 2 ^ 24 * time.Second ->
  remaining e t = (e - t) / time.Second.
Proof.
  intros Hd. destruct (Z.eq_dec (e - t) (2 ^ 24 * time.Second)) as [E | NE];
    [|apply remaining_exact; lia].
  unfold remaining, float64.to_uint32, Go.low32, time.Second in *.
  rewrite Sub_exact by lia.
  rewrite time_facts.trunc_Seconds_whole; rewrite E; try done.
Qed.

(** The TTL left is the whole seconds of the time left or, where the
    sum in [Seconds] rounds up, one more. *)
Lemma remaining_near e t :
  0 <= e - t <= (2 ^ 32 - 1) * time.Second ->
  (e - t) / time.Second <= remaining e t <= (e - t) / time.Second + 1.
Proof.
  unfold time.Second. intros Hd.
  unfold remaining, float64.to_uint32, Go.low32.
  rewrite Sub_exact by lia.
  pose proof (time_facts.trunc_Seconds_bounds (e - t) ltac:(lia)) as [Hlo Hhi].
  assert (0 <= (e - t) / 1000000000) by (apply Z.div_pos; lia).
  assert (float64.trunc (time.Seconds (e - t)) < 2 ^ 32).
  { destruct (Z.eq_dec (e - t) ((2 ^ 32 - 1) * 1000000000)) as [E | NE].
    - rewrite time_facts.trunc_Seconds_whole; rewrite E; try done.
    - assert ((e - t) / 1000000000 < 2 ^ 32 - 1)
        by (apply Z.div_lt_upper_bound; lia).
      lia. }
  rewrite Z.mod_small; lia.
Qed.

(** A lookup that finds the key, with the clock reads it has made. *)
Lemma Get_hit c k clk n :
  (cache.GetWithExpiration c k clk n).1.2 = true ->
  exists item,
    cache.items c !! k = Some item /\
    cache.GetWithExpiration c k clk n
      = ((cache.Object item,
          if 0 <? cache.Expiration item
          then cache.Expiration item else time.zeroTime, true),
         if 0 <? cache.Expiration item then S n else n).
Proof.
  unfold cache.GetWithExpiration.
  destruct (cache.items c !! k) as [item|]; [|done].
  intros Hf. exists item. split; [done|].
  destruct (0 <? cache.Expiration item); [|done]. cbn in *.
  by destruct (cache.Expiration item <? time.UnixNano (clk n)).
Qed.

(** C10. For every call of [resolveOverTLS], from a reachable store, in
    which the lookup finds the domain: the call returns the address of
    the stored answer, [useCache = true] and a nil error, with the TTL
    computed from the stored expiration and the clock read that
    follows the lookup: the whole seconds from that read to the
    expiration while at most 2^24 of them are left, and that or one
    more beyond.  The store and the trace are those before the call:
    it made no call of the resolver. *)
Theorem resolveOverTLS_hit_frame env w domain dnsServer :
  reachable (inmem w) -> found env w domain = true ->
  exists item a,
    cache.items (inmem w) !! domain = Some item /\
    cache.Object item = OfAnswer a /\
    let expr := if 0 <? cache.Expiration item
                then cache.Expiration item else time.zeroTime in
    let n := if 0 <? cache.Expiration item then S (reads w) else reads w in
    let t := now env n in
    resolveOverTLS domain dnsServer env w =
      (Ret (mkAnswer (ip a) (remaining expr t), true, None),
       mkWorld (inmem w) (S n) (trace w)) /\
    exchanges (trace (resolveOverTLS domain dnsServer env w).2)
      = exchanges (trace w) /\
    (0 <= expr - t <= 2 ^ 24 * time.Second ->
     remaining expr t = (expr - t) / time.Second) /\
    (0 <= expr - t <= (2 ^ 32 - 1) * time.Second ->
     (expr - t) / time.Second <= remaining expr t
       <= (expr - t) / time.Second + 1).
Proof.
  unfold found. intros Hc Hf.
  destruct (Get_hit _ _ _ _ Hf) as (item & Hit & E).
  destruct (reachable_answers_only _ Hc _ _ Hit) as [a Ha].
  exists item, a. split; [done|]. split; [done|]. cbv zeta.
  rewrite Ha in E. rewrite (resolveOverTLS_hit _ _ _ _ _ _ _ E).
  split; [done|]. split; [done|]. split.
  - apply remaining_floor.
  - apply remaining_near.
Qed.

Lemma resolveOverTLS_hit_frame_witness :
  let env := sample.env time.Second sample.timeout in
  reachable (inmem sample.warmed) /\
  found env sample.warmed "example.com." = true /\
  (resolveOverTLS "example.com." "1.1.1.1:853" env sample.warmed).1
    = Ret (mkAnswer "93.184.216.34" 298, true, None) /\
  exists item a,
    cache.items (inmem sample.warmed) !! "example.com." = Some item /\
    cache.Object item = OfAnswer a /\
    let expr := if 0 <? cache.Expiration item
                then cache.Expiration item else time.zeroTime in
    let n := if 0 <? cache.Expiration item
             then S (reads sample.warmed) else reads sample.warmed in
    let t := now env n in
    resolveOverTLS "example.com." "1.1.1.1:853" env sample.warmed =
      (Ret (mkAnswer (ip a) (remaining expr t), true, None),
       mkWorld (inmem sample.warmed) (S n) (trace sample.warmed)) /\
    exchanges (trace (resolveOverTLS "example.com." "1.1.1.1:853" env
                                     sample.warmed).2)
      = exchanges (trace sample.warmed) /\
    (0 <= expr - t <= 2 ^ 24 * time.Second ->
     remaining expr t = (expr - t) / time.Second) /\
    (0 <= expr - t <= (2 ^ 32 - 1) * time.Second ->
     (expr - t) / time.Second <= remaining expr t
       <= (expr - t) / time.Second + 1).
Proof.
  cbv zeta. split; [apply warmed_reachable|]. split; [by vm_compute|].
  split; [by vm_compute|].
  apply (resolveOverTLS_hit_frame (sample.env time.Second sample.timeout)
           sample.warmed "example.com." "1.1.1.1:853");
    [apply warmed_reachable | by vm_compute].
Defined.

(** ** C4 and C5: the remaining TTL *)

(** The hit on an entry stored at [tset] for [ttl] seconds, read at
    [tget] and timed at [tnow]. *)
Lemma resolveOverTLS_live env w domain dnsServer a tset ttl :
  1 <= ttl < 2 ^ 32 -> 0 <= tset -> tset + ttl * time.Second < 2 ^ 63 ->
  cache.items (inmem w) !! domain
    = Some (cache.mkItem (OfAnswer a) (tset + ttl * time.Second)) ->
  tset <= now env (reads w) <= now env (S (reads w)) ->
  now env (S (reads w)) <= tset + ttl * time.Second ->
  resolveOverTLS domain dnsServer env w =
    (Ret (mkAnswer (ip a)
                   (remaining (tset + ttl * time.Second) (now env (S (reads w)))),
          true, None),
     mkWorld (inmem w) (S (S (reads w))) (trace w)).
Proof.
  unfold time.Second. intros Httl Hs He Hit Hclk Hlive.
  apply resolveOverTLS_hit.
  rewrite (Get_live _ _ _ _ _ Hit); cbn [cache.Expiration cache.Object]; [done|lia|].
  unfold time.UnixNano. rewrite wrap64_id; lia.
Qed.

(** C4, as stated, fails.  An entry stored for one second and read
    half a second later is found although its remaining TTL is computed
    as 0.  An entry stored with a TTL of 0 is found one second later
    with a remaining TTL of 59, above the TTL it was inserted with.  And
    an entry stored for 2^24 + 1 seconds is read a nanosecond later
    with that same TTL, not a smaller one: the sum in [Seconds] is
    rounded up to a whole number. *)
Lemma remaining_ttl_counterexample :
  let at_ (t : time.Time) :=
    mkEnv (fun _ => t) sample.timeout 4242 sample.parse sample.print
          "1.1.1.1:853" in
  (resolveOverTLS "example.com." "1.1.1.1:853" (at_ (sample.t0 + 500000000))
     (sample.holding (mkAnswer "93.184.216.34" 1) 1)).1
    = Ret (mkAnswer "93.184.216.34" 0, true, None)
  /\
  (resolveOverTLS "example.com." "1.1.1.1:853" (at_ (sample.t0 + 1 * time.Second))
     (sample.holding (mkAnswer "" 0) 0)).1
    = Ret (mkAnswer "" 59, true, None)
  /\
  (resolveOverTLS "example.com." "1.1.1.1:853" (at_ (sample.t0 + 1))
     (sample.holding (mkAnswer "93.184.216.34" 16777217) 16777217)).1
    = Ret (mkAnswer "93.184.216.34" 16777217, true, None).
Proof. cbv zeta. repeat split; by vm_compute. Qed.

(** C4, amended. Take the entry of a domain as [Set] left it at [tset]
    for a TTL of [ttl] seconds, 1 <= ttl < 2^32, holding an answer; let
    the lookup read the clock at [tget] and the TTL be computed at
    [tnow], with tset <= tget <= tnow.  While [tnow] is not past the
    expiration, the call finds the entry and returns its address with a
    remaining TTL that is never negative and at most [ttl]; for ttl <=
    2^24 it is the whole seconds from [tnow] to the expiration, so
    strictly less than [ttl] as soon as any time has elapsed, and 0 in
    the last second of the entry, which is still found.  The call does
    not find the domain when no entry exists or when [tget] is strictly
    past the expiration of the entry. *)
Theorem resolveOverTLS_remaining_ttl env w domain dnsServer :
  let tget := now env (reads w) in
  let tnow := now env (S (reads w)) in
  (forall a tset ttl,
      1 <= ttl < 2 ^ 32 -> 0 <= tset -> tset + ttl * time.Second < 2 ^ 63 ->
      cache.items (inmem w) !! domain
        = Some (cache.mkItem (OfAnswer a) (tset + ttl * time.Second)) ->
      tset <= tget <= tnow -> tnow <= tset + ttl * time.Second ->
      exists left,
        (resolveOverTLS domain dnsServer env w).1
          = Ret (mkAnswer (ip a) left, true, None) /\
        0 <= left <= ttl /\
        (ttl <= 2 ^ 24 ->
         left = (tset + ttl * time.Second - tnow) / time.Second /\
         (tset < tnow -> left < ttl))) /\
  (cache.items (inmem w) !! domain = None ->
   useCache (resolveOverTLS domain dnsServer env w).1 = Some false) /\
  (forall item,
      cache.items (inmem w) !! domain = Some item ->
      0 < cache.Expiration item < tget -> tget < 2 ^ 63 ->
      useCache (resolveOverTLS domain dnsServer env w).1 = Some false).
Proof.
  cbv zeta. split; [|split].
  - intros a tset ttl Httl Hs He Hit Hclk Hlive.
    rewrite (resolveOverTLS_live _ _ _ _ a tset ttl) by (done || lia).
    eexists. split; [done|]. split; [apply remaining_le; lia|].
    intros H24. unfold time.Second in *.
    rewrite remaining_floor by (unfold time.Second; lia).
    unfold time.Second. split; [done|].
    intros Hel. apply Z.div_lt_upper_bound; lia.
  - intros Hno. apply resolveOverTLS_miss_useCache. unfold found.
    by rewrite Get_absent.
  - intros item Hit Hexp Hget. apply resolveOverTLS_miss_useCache. unfold found.
    rewrite (Get_expired _ _ _ _ _ Hit); [done|].
    unfold time.UnixNano. rewrite wrap64_id; lia.
Qed.

Lemma resolveOverTLS_remaining_ttl_witness :
  let a := mkAnswer "93.184.216.34" 300 in
  let env := sample.env time.Second sample.timeout in
  let late := mkEnv (fun _ => sample.t0 + 5 * time.Second) sample.timeout 4242
                    sample.parse sample.print "1.1.1.1:853" in
  (exists left,
     (resolveOverTLS "example.com." "1.1.1.1:853" env (sample.holding a 300)).1
       = Ret (mkAnswer (ip a) left, true, None) /\
     0 <= left <= 300 /\
     (300 <= 2 ^ 24 ->
      left = (sample.t0 + 300 * time.Second - now env 1) / time.Second /\
      (sample.t0 < now env 1 -> left < 300))) /\
  useCache (resolveOverTLS "example.com." "1.1.1.1:853" env sample.start).1
    = Some false /\
  useCache (resolveOverTLS "example.com." "1.1.1.1:853" late
                           (sample.holding a 1)).1
    = Some false.
Proof.
  cbv zeta. split; [|split].
  - apply (proj1 (resolveOverTLS_remaining_ttl
                    (sample.env time.Second sample.timeout)
                    (sample.holding (mkAnswer "93.184.216.34" 300) 300)
                    "example.com." "1.1.1.1:853")
                 (mkAnswer "93.184.216.34" 300) sample.t0 300);
      try (vm_compute; intuition congruence); by vm_compute.
  - apply (proj1 (proj2 (resolveOverTLS_remaining_ttl
                           (sample.env time.Second sample.timeout) sample.start
                           "example.com." "1.1.1.1:853"))).
    by vm_compute.
  - apply (proj2 (proj2 (resolveOverTLS_remaining_ttl
                           (mkEnv (fun _ => sample.t0 + 5 * time.Second)
                                  sample.timeout 4242 sample.parse sample.print
                                  "1.1.1.1:853")
                           (sample.holding (mkAnswer "93.184.216.34" 300) 1)
                           "example.com." "1.1.1.1:853"))
                 (cache.mkItem (OfAnswer (mkAnswer "93.184.216.34" 300))
                               (sample.t0 + 1 * time.Second)));
      by vm_compute.
Defined.

Lemma remaining_whole e t ttl :
  0 <= ttl < 2 ^ 32 -> e - t = ttl * time.Second -> remaining e t = ttl.
Proof.
  unfold time.Second. intros Httl E.
  unfold remaining, float64.to_uint32, Go.low32.
  rewrite Sub_exact by lia.
  rewrite time_facts.trunc_Seconds_whole; rewrite E.
  - rewrite Z.div_mul by lia. apply Z.mod_small. lia.
  - lia.
  - apply Z.mod_mul. lia.
Qed.

(** C5, as stated, fails for a TTL of 0 seconds: [Set] takes a zero
    duration for the default expiration of the store, one minute, so
    the entry expires a minute after the insertion and an immediate
    lookup returns a remaining TTL of 60, above the inserted 0. *)
Lemma Set_then_resolve_counterexample :
  let a := mkAnswer "93.184.216.34" 0 in
  let env := mkEnv (fun _ => sample.t0) sample.timeout 4242
                   sample.parse sample.print "1.1.1.1:853" in
  let set := cache.Set_ inmem0 "example.com." (OfAnswer a) (ttlDuration 0)
                        (now env) 0%nat in
  cache.items set.1 !! "example.com."
    = Some (cache.mkItem (OfAnswer a) (sample.t0 + 60 * time.Second)) /\
  sample.t0 + 60 * time.Second <> sample.t0 + 0 * time.Second /\
  (resolveOverTLS "example.com." "1.1.1.1:853" env
     (mkWorld set.1 set.2 [])).1
    = Ret (mkAnswer "93.184.216.34" 60, true, None) /\
  ~ 60 <= 0.
Proof. cbv zeta. repeat split; by vm_compute. Qed.

(** C5, amended. For every domain, answer and TTL of 1 second or more,
    a [Set] of the answer for that TTL at [tset] leaves an entry that
    expires at [tset] plus the TTL, and a call of [resolveOverTLS] that
    follows it before that expiration, on a clock that does not run
    backwards, returns the address of the answer and a remaining TTL
    that is at most the inserted one, and equal to it when no time has
    passed. *)
Theorem Set_then_resolve env c domain dnsServer a ttl n tr :
  1 <= ttl < 2 ^ 32 ->
  0 <= now env n < 2 ^ 62 ->
  now env n <= now env (S n) <= now env (S (S n)) ->
  now env (S (S n)) <= now env n + ttl * time.Second ->
  let set := cache.Set_ c domain (OfAnswer a) (ttlDuration ttl) (now env) n in
  cache.items set.1 !! domain
    = Some (cache.mkItem (OfAnswer a) (now env n + ttl * time.Second)) /\
  exists left,
    (resolveOverTLS domain dnsServer env (mkWorld set.1 set.2 tr)).1
      = Ret (mkAnswer (ip a) left, true, None) /\
    0 <= left <= ttl /\
    (now env (S (S n)) = now env n -> left = ttl).
Proof.
  intros Httl Hnow Hclk Hlive. cbv zeta.
  assert (Hd : ttlDuration ttl = ttl * time.Second)
    by (apply ttlDuration_seconds; lia).
  assert (Hsec : time.Second = 1000000000) by done.
  assert (Hlook : cache.items
            (cache.Set_ c domain (OfAnswer a) (ttlDuration ttl) (now env) n).1
            !! domain
          = Some (cache.mkItem (OfAnswer a) (now env n + ttl * time.Second))).
  { rewrite Set_lookup, Hd. cbv zeta.
    rewrite (proj2 (Z.eqb_neq _ _)) by (unfold cache.DefaultExpiration; lia).
    rewrite (proj2 (Z.ltb_lt _ _)) by lia.
    unfold time.UnixNano, time.Add. rewrite wrap64_id; [done|lia]. }
  assert (Hn : (cache.Set_ c domain (OfAnswer a) (ttlDuration ttl) (now env) n).2
               = S n).
  { unfold cache.Set_. rewrite Hd. cbv zeta.
    rewrite (proj2 (Z.eqb_neq _ _)) by (unfold cache.DefaultExpiration; lia).
    by rewrite (proj2 (Z.ltb_lt _ _)) by lia. }
  split; [done|]. rewrite Hn.
  eexists. split.
  { rewrite (resolveOverTLS_live _ _ _ _ a (now env n) ttl);
      cbn [inmem reads]; (done || lia). }
  split.
  - apply remaining_le; lia.
  - intros E. apply remaining_whole; lia.
Qed.

Lemma Set_then_resolve_witness :
  let a := mkAnswer "93.184.216.34" 300 in
  let env := sample.env time.Second sample.timeout in
  1 <= 300 < 2 ^ 32 /\
  0 <= now env 0 < 2 ^ 62 /\
  now env 0 <= now env 1 <= now env 2 /\
  now env 2 <= now env 0 + 300 * time.Second /\
  let set := cache.Set_ inmem0 "example.com." (OfAnswer a) (ttlDuration 300)
                        (now env) 0%nat in
  cache.items set.1 !! "example.com."
    = Some (cache.mkItem (OfAnswer a) (now env 0 + 300 * time.Second)) /\
  exists left,
    (resolveOverTLS "example.com." "1.1.1.1:853" env
       (mkWorld set.1 set.2 [])).1
      = Ret (mkAnswer (ip a) left, true, None) /\
    0 <= left <= 300 /\
    (now env 2 = now env 0 -> left = 300).
Proof.
  cbv zeta.
  split; [lia|]. split; [by vm_compute|]. split; [by vm_compute|].
  split; [by vm_compute|].
  apply (Set_then_resolve (sample.env time.Second sample.timeout) inmem0
           "example.com." "1.1.1.1:853" (mkAnswer "93.184.216.34" 300) 300
           0%nat []); try lia; by vm_compute.
Defined.

(** ** Runs of the whole handler *)

(** The scenario of the specification: a first query for the A record
    of example.com. goes upstream and is answered from the response; a
    second one, two clock reads later, is answered from the store with
    what is left of the TTL. *)
Example two_queries :
  let env := sample.env time.Second (sample.answers [sample.rrA 300]) in
  let r := sample.query [sample.qA] in
  let w1 := (ServeDNS sample.writer r env sample.start).2 in
  let w2 := (ServeDNS sample.writer r env w1).2 in
  map dns.Answer (replies (trace w2)) =
    [[dns.A (dns.mkHeader "example.com." dns.TypeA dns.ClassINET 300 0) sample.addr];
     [dns.A (dns.mkHeader "example.com." dns.TypeA dns.ClassINET 298 0) sample.addr]]
  /\ length (exchanges (trace w2)) = 1%nat
  /\ Log InfoLevel [("use_cache", OfBool true)] "Cache usage" ∈ trace w2.
Proof.
  cbv zeta. split; [by vm_compute|]. split; [by vm_compute|].
  vm_compute. do 5 apply list_elem_of_further. apply list_elem_of_here.
Qed.

(** Above 2^24 seconds the sum in [Seconds] is rounded to a whole
    number: a nanosecond after the insertion the remaining TTL is still
    the inserted one. *)
Example remaining_rounded_up :
  remaining (sample.t0 + 16777217 * time.Second) (sample.t0 + 1) = 16777217.
Proof. by vm_compute. Qed.

(** When the clock passes the expiration between the lookup and the
    computation of the TTL by a second or more, the conversion to
    [uint32] wraps around. *)
Example remaining_past_expiration :
  remaining sample.t0 (sample.t0 + 1500000000) = 4294967295.
Proof. by vm_compute. Qed.

(** * Further properties of [resolveOverTLS] and [ServeDNS] *)

(** ** What a call does to the store *)

(** A call of [resolveOverTLS] leaves the store as it is or ends in the
    store of an answer under the domain. *)
Lemma resolveOverTLS_inmem domain dnsServer env w :
  inmem (resolveOverTLS domain dnsServer env w).2 = inmem w \/
  exists answer n,
    found env w domain = false /\
    inmem (resolveOverTLS domain dnsServer env w).2
      = (cache.Set_ (inmem w) domain (OfAnswer answer)
                    (ttlDuration (ttl answer)) (now env) n).1.
Proof.
  unfold found.
  destruct (Get_cases (inmem w) domain (now env) (reads w))
    as [(mem & expr & n' & E) | (item & n' & _ & E)].
  - rewrite (resolveOverTLS_miss _ _ _ _ _ _ _ E), E. cbv zeta.
    destruct (upstream env _ dnsServer) as [in_ | err]; [|by left].
    destruct (dns.Answer in_) as [|[hdr a | hdr rd] rest]; cbn [snd];
      rewrite ?stored_inmem; cbn [inmem reads]; [right | right | by left];
      by eexists _, _.
  - left. unfold resolveOverTLS. run. rewrite E.
    by destruct (cache.Object item).
Qed.

(** The same for the handler: only a question of type A that comes
    first can end in a store, under its name. *)
Lemma ServeDNS_inmem w r env wd :
  inmem (ServeDNS w r env wd).2 = inmem wd \/
  exists q qs answer n,
    dns.Question_ r = q :: qs /\ dns.Qtype q = dns.TypeA /\
    found env wd (dns.Name q) = false /\
    inmem (ServeDNS w r env wd).2
      = (cache.Set_ (inmem wd) (dns.Name q) (OfAnswer answer)
                    (ttlDuration (ttl answer)) (now env) n).1.
Proof.
  destruct (dns.Question_ r) as [|q qs] eqn:Hq.
  { left. by rewrite ServeDNS_no_question. }
  destruct (Z.eq_dec (dns.Qtype q) dns.TypeA) as [HA | HA].
  2:{ left. by rewrite (ServeDNS_other_type _ _ _ _ q qs). }
  pose proof (resolveOverTLS_inmem (dns.Name q) (resolver env) env
                (mkWorld (inmem wd) (reads wd) (trace wd ++ [requestLog w q])))
    as Hin.
  destruct (resolveOverTLS _ _ _ _) as [o w2] eqn:Hres.
  rewrite (ServeDNS_typeA _ _ _ _ _ _ _ _ Hq HA Hres).
  cbn [snd inmem] in Hin.
  assert (Hw : inmem (match o with
                      | Ret (answer, uc, err) =>
                          (Ret tt, mkWorld (inmem w2) (reads w2)
                                     (trace w2 ++ served env w r (dns.Name q) answer uc err))
                      | Panic reason => (Panic reason, w2)
                      end).2 = inmem w2)
    by (by destruct o as [[[answer uc] err]|reason]).
  rewrite Hw. destruct Hin as [Hin | (answer & n & Hf & Hin)]; [by left|].
  right. by exists q, qs, answer, n.
Qed.

Lemma Set_lookup_ne c k x d clk n k' :
  k' <> k -> cache.items (cache.Set_ c k x d clk n).1 !! k' = cache.items c !! k'.
Proof.
  intros Hne. unfold cache.Set_. cbv zeta.
  destruct (0 <? _); cbn; by rewrite lookup_insert_ne.
Qed.

(** X2. A call of [resolveOverTLS] for a domain leaves the entry of
    every other key of the store as it was. *)
Theorem resolveOverTLS_other_keys domain dnsServer env w k :
  k <> domain ->
  cache.items (inmem (resolveOverTLS domain dnsServer env w).2) !! k
    = cache.items (inmem w) !! k.
Proof.
  intros Hne.
  destruct (resolveOverTLS_inmem domain dnsServer env w)
    as [-> | (answer & n & _ & ->)]; [done|].
  by apply Set_lookup_ne.
Qed.

Lemma resolveOverTLS_other_keys_witness :
  "example.org." <> "example.com." /\
  cache.items
    (inmem (resolveOverTLS "example.com." "1.1.1.1:853"
              (sample.env time.Second (sample.answers [sample.rrA 60]))
              sample.warmed).2) !! "example.org."
    = cache.items (inmem sample.warmed) !! "example.org.".
Proof.
  split; [discriminate|].
  apply (resolveOverTLS_other_keys "example.com." "1.1.1.1:853"
           (sample.env time.Second (sample.answers [sample.rrA 60]))
           sample.warmed "example.org.").
  discriminate.
Defined.

(** X12. A call of the handler leaves the entry of every key other
    than the name of the first question as it was; without a question
    it leaves the whole store. *)
Theorem ServeDNS_other_keys w r env wd k :
  (forall q qs, dns.Question_ r = q :: qs -> k <> dns.Name q) ->
  cache.items (inmem (ServeDNS w r env wd).2) !! k
    = cache.items (inmem wd) !! k.
Proof.
  intros Hne.
  destruct (ServeDNS_inmem w r env wd)
    as [-> | (q & qs & answer & n & Hq & _ & _ & ->)]; [done|].
  apply Set_lookup_ne. by apply (Hne q qs).
Qed.

Lemma ServeDNS_other_keys_witness :
  (forall q qs, dns.Question_ (sample.query [sample.qA]) = q :: qs ->
                "example.org." <> dns.Name q) /\
  cache.items
    (inmem (ServeDNS sample.writer (sample.query [sample.qA])
              (sample.env time.Second (sample.answers [sample.rrA 60]))
              sample.warmed).2) !! "example.org."
    = cache.items (inmem sample.warmed) !! "example.org.".
Proof.
  assert (H : forall q qs, dns.Question_ (sample.query [sample.qA]) = q :: qs ->
                           "example.org." <> dns.Name q)
    by (intros q qs [= <- _]; discriminate).
  split; [exact H|].
  apply (ServeDNS_other_keys sample.writer (sample.query [sample.qA])
           (sample.env time.Second (sample.answers [sample.rrA 60]))
           sample.warmed "example.org." H).
Defined.

(** ** What goes upstream *)

Lemma found_trace env c n tr tr' domain :
  found env (mkWorld c n tr) domain = found env (mkWorld c n tr') domain.
Proof. reflexivity. Qed.

(** The calls of [c.Exchange] a call of [resolveOverTLS] makes. *)
Lemma resolveOverTLS_sent domain dnsServer env w :
  exchanges (trace (resolveOverTLS domain dnsServer env w).2)
    = exchanges (trace w)
        ++ (if found env w domain then []
            else [(question env domain, dnsServer)]).
Proof.
  unfold found.
  destruct (Get_cases (inmem w) domain (now env) (reads w))
    as [(mem & expr & n' & E) | (item & n' & _ & E)].
  - rewrite (resolveOverTLS_miss _ _ _ _ _ _ _ E), E. cbv zeta. cbn [fst snd].
    assert (Hex : exchanges (trace w ++ [Exchanged (question env domain) dnsServer])
                  = exchanges (trace w) ++ [(question env domain, dnsServer)])
      by (by rewrite exchanges_app).
    destruct (upstream env _ dnsServer) as [in_ | err]; [|done].
    destruct (dns.Answer in_) as [|[hdr a | hdr rd] rest];
      cbn [snd]; by rewrite ?stored_trace.
  - rewrite E. cbn [fst snd]. rewrite app_nil_r.
    unfold resolveOverTLS. run. rewrite E.
    by destruct (cache.Object item).
Qed.

(** X3. A call of [resolveOverTLS] makes one call of [c.Exchange] when
    the lookup misses and none when it finds the domain; that call is
    given [dnsServer] and a query that asks, with recursion desired,
    the one question of the A record, class IN, of the domain. *)
Theorem resolveOverTLS_exchanges domain dnsServer env w :
  exchanges (trace (resolveOverTLS domain dnsServer env w).2)
    = exchanges (trace w)
        ++ (if found env w domain then []
            else [(question env domain, dnsServer)])
  /\ dns.Question_ (question env domain)
       = [dns.mkQuestion domain dns.TypeA dns.ClassINET]
  /\ dns.RecursionDesired (dns.Hdr (question env domain)) = true
  /\ dns.Answer (question env domain) = [].
Proof.
  split; [|done]. unfold found.
  destruct (Get_cases (inmem w) domain (now env) (reads w))
    as [(mem & expr & n' & E) | (item & n' & _ & E)].
  - rewrite (resolveOverTLS_miss _ _ _ _ _ _ _ E), E. cbv zeta. cbn [fst snd].
    destruct (upstream env _ dnsServer) as [in_ | err];
      [|cbn [snd trace]; by rewrite exchanges_app].
    destruct (dns.Answer in_) as [|[hdr a | hdr rd] rest];
      cbn [snd]; rewrite ?stored_trace; cbn [trace]; by rewrite exchanges_app.
  - rewrite E. cbn [fst snd]. rewrite app_nil_r.
    unfold resolveOverTLS. run. rewrite E.
    by destruct (cache.Object item).
Qed.

(** X14. A call of the handler makes at most one call of [c.Exchange]:
    one, with the resolver of the [-resolver] flag and a query for the
    name of the first question as it was received, when that question
    is of type A and the lookup of its name misses; none otherwise. *)
Theorem ServeDNS_exchanges w r env wd :
  exchanges (trace (ServeDNS w r env wd).2)
    = exchanges (trace wd)
        ++ match dns.Question_ r with
           | q :: _ =>
               if (dns.Qtype q =? dns.TypeA) && negb (found env wd (dns.Name q))
               then [(question env (dns.Name q), resolver env)]
               else []
           | [] => []
           end.
Proof.
  destruct (dns.Question_ r) as [|q qs] eqn:Hq.
  { rewrite ServeDNS_no_question by done. cbn [snd trace].
    by rewrite exchanges_app. }
  destruct (Z.eq_dec (dns.Qtype q) dns.TypeA) as [HA | HA].
  2:{ rewrite (ServeDNS_other_type _ _ _ _ q qs) by done. cbn [snd trace].
      rewrite (proj2 (Z.eqb_neq _ _) HA). by rewrite exchanges_app. }
  rewrite (proj2 (Z.eqb_eq _ _) HA). cbn [andb].
  pose proof (resolveOverTLS_sent (dns.Name q) (resolver env) env
                (mkWorld (inmem wd) (reads wd) (trace wd ++ [requestLog w q])))
    as Hex.
  rewrite (found_trace env _ _ _ (trace wd)) in Hex.
  cbn [trace] in Hex. rewrite exchanges_app in Hex. cbn in Hex.
  rewrite app_nil_r in Hex.
  replace (mkWorld (inmem wd) (reads wd) (trace wd)) with wd in Hex
    by (by destruct wd).
  destruct (resolveOverTLS _ _ _ _) as [o w2] eqn:Hres.
  rewrite (ServeDNS_typeA _ _ _ _ _ _ _ _ Hq HA Hres).
  cbn [snd] in Hex.
  destruct o as [[[answer uc] err]|reason]; cbn [snd trace]; [|by destruct (found _ _ _)].
  rewrite exchanges_app, Hex.
  assert (exchanges (served env w r (dns.Name q) answer uc err) = []) as ->.
  { unfold served. rewrite !exchanges_app.
    by destruct err, (dns.WriteMsg_err w _). }
  rewrite app_nil_r. by destruct (found _ _ _).
Qed.

(** ** A miss that succeeds, and the calls that follow it *)

Lemma lifetime_range ttl : 0 <= ttl < 2 ^ 32 -> 1 <= lifetime ttl < 2 ^ 32.
Proof. unfold lifetime. destruct (Z.eqb_spec ttl 0); lia. Qed.

(** The entry a store leaves, in a store whose default expiration is
    that of [inmem]. *)
Lemma Set_entry c k x ttl clk n :
  cache.defaultExpiration c = time.Minute ->
  0 <= ttl < 2 ^ 32 -> 0 <= clk n < 2 ^ 62 ->
  cache.Set_ c k x (ttlDuration ttl) clk n
    = (cache.mkCache time.Minute
         (<[k := cache.mkItem x (clk n + lifetime ttl * time.Second)]>
            (cache.items c)), S n).
Proof.
  intros Hde Httl Hclk. unfold cache.Set_, lifetime.
  rewrite ttlDuration_seconds, Hde by done. cbv zeta.
  unfold time.UnixNano, time.Add, cache.DefaultExpiration, time.Minute,
    time.Second, clock.Now in *.
  destruct (Z.eqb_spec ttl 0) as [-> | Hne].
  - rewrite Z.mul_0_l. change (0 =? 0) with true. cbv iota.
    rewrite (proj2 (Z.ltb_lt _ _)) by lia.
    rewrite wrap64_id by lia. done.
  - rewrite (proj2 (Z.eqb_neq _ _)) by lia.
    rewrite (proj2 (Z.ltb_lt _ _)) by lia.
    rewrite wrap64_id by lia. done.
Qed.

(** The clock reads of the lookup that misses are not past its first. *)
Lemma Get_reads c k clk n :
  (cache.GetWithExpiration c k clk n).2 = n \/
  (cache.GetWithExpiration c k clk n).2 = S n.
Proof.
  unfold cache.GetWithExpiration.
  destruct (cache.items c !! k) as [item|]; [|by left].
  destruct (0 <? cache.Expiration item); [|by left]. cbn.
  destruct (cache.Expiration item <? time.UnixNano (clk n)); by right.
Qed.

(** X1. When the lookup misses and the response of the resolver opens
    with an A record, [resolveOverTLS] returns the text of the address
    and the TTL of that record with [useCache = false] and a nil error,
    whatever records follow the first; it has sent one query upstream,
    and has stored the answer under the domain, to expire [lifetime]
    seconds after the store. *)
Theorem resolveOverTLS_fresh_answer env w domain dnsServer in_ hdr a rest :
  found env w domain = false ->
  upstream env (question env domain) dnsServer = inl in_ ->
  dns.Answer in_ = dns.A hdr a :: rest ->
  cache.defaultExpiration (inmem w) = time.Minute ->
  0 <= dns.Ttl hdr < 2 ^ 32 ->
  let n := (cache.GetWithExpiration (inmem w) domain (now env) (reads w)).2 in
  0 <= now env n < 2 ^ 62 ->
  let answer := mkAnswer (IP_String env a) (dns.Ttl hdr) in
  exists w',
    resolveOverTLS domain dnsServer env w = (Ret (answer, false, None), w') /\
    cache.items (inmem w') !! domain
      = Some (cache.mkItem (OfAnswer answer)
                (now env n + lifetime (dns.Ttl hdr) * time.Second)) /\
    reads w' = S n /\
    trace w' = trace w ++ [Exchanged (question env domain) dnsServer].
Proof.
  unfold found. intros Hf Hup Hans Hde Httl.
  destruct (cache.GetWithExpiration _ _ _ _) as [[[mem expr] f] m] eqn:E.
  cbn in Hf. subst f. cbn [snd]. intros Hclk.
  rewrite (resolveOverTLS_miss _ _ _ _ _ _ _ E). cbv zeta.
  rewrite Hup, Hans. eexists. split; [done|].
  unfold stored. cbn [inmem reads trace ttl].
  rewrite Set_entry by done. cbn [inmem reads trace cache.items].
  by rewrite lookup_insert_eq.
Qed.

Lemma resolveOverTLS_fresh_answer_witness :
  let env := sample.env time.Second
               (sample.answers [sample.rrA 300; sample.rrCNAME]) in
  let answer := mkAnswer "93.184.216.34" 300 in
  found env sample.start "example.com." = false /\
  cache.defaultExpiration (inmem sample.start) = time.Minute /\
  0 <= 300 < 2 ^ 32 /\
  0 <= now env 0 < 2 ^ 62 /\
  exists w',
    resolveOverTLS "example.com." "1.1.1.1:853" env sample.start
      = (Ret (answer, false, None), w') /\
    cache.items (inmem w') !! "example.com."
      = Some (cache.mkItem (OfAnswer answer)
                (sample.t0 + lifetime 300 * time.Second)) /\
    reads w' = 1%nat /\
    trace w' = trace sample.start
                 ++ [Exchanged (question env "example.com.") "1.1.1.1:853"].
Proof.
  cbv zeta. split; [reflexivity|]. split; [reflexivity|].
  split; [lia|]. split; [by vm_compute|].
  apply (resolveOverTLS_fresh_answer
           (sample.env time.Second
              (sample.answers [sample.rrA 300; sample.rrCNAME]))
           sample.start "example.com." "1.1.1.1:853"
           (sample.response [sample.rrA 300; sample.rrCNAME])
           (dns.mkHeader "example.com." dns.TypeA dns.ClassINET 300 4)
           sample.addr [sample.rrCNAME]);
    try reflexivity; by vm_compute.
Defined.

(** A hit on the entry that a store at [tstore] left for an answer. *)
Lemma resolveOverTLS_after_store env w domain dnsServer answer tstore :
  0 <= ttl answer < 2 ^ 32 -> 0 <= tstore < 2 ^ 62 ->
  cache.items (inmem w) !! domain
    = Some (cache.mkItem (OfAnswer answer)
              (tstore + lifetime (ttl answer) * time.Second)) ->
  tstore <= now env (reads w) <= now env (S (reads w)) ->
  now env (S (reads w)) <= tstore + lifetime (ttl answer) * time.Second ->
  exists left,
    resolveOverTLS domain dnsServer env w =
      (Ret (mkAnswer (ip answer) left, true, None),
       mkWorld (inmem w) (S (S (reads w))) (trace w)) /\
    0 <= left <= lifetime (ttl answer).
Proof.
  intros Httl Hs Hit Hclk Hlive.
  pose proof (lifetime_range _ Httl) as HL.
  assert (time.Second = 1000000000) as HS by done.
  rewrite (resolveOverTLS_live _ _ _ _ answer tstore (lifetime (ttl answer)));
    try done; try lia.
  eexists. split; [done|]. apply remaining_le; lia.
Qed.

(** A call that returns an answer with [useCache = false] and a nil
    error was a miss that ended in the store of that answer. *)
Lemma resolveOverTLS_stored env w w1 domain dnsServer answer :
  resolveOverTLS domain dnsServer env w = (Ret (answer, false, None), w1) ->
  found env w domain = false /\
  w1 = stored env
         (mkWorld (inmem w)
            (cache.GetWithExpiration (inmem w) domain (now env) (reads w)).2
            (trace w ++ [Exchanged (question env domain) dnsServer]))
         domain answer.
Proof.
  unfold found.
  destruct (Get_cases (inmem w) domain (now env) (reads w))
    as [(mem & expr & n' & E) | (item & n' & _ & E)].
  - rewrite (resolveOverTLS_miss _ _ _ _ _ _ _ E), E. cbv zeta. cbn [fst snd].
    destruct (upstream env _ dnsServer) as [in_ | err]; [|done].
    destruct (dns.Answer in_) as [|[hdr a | hdr rd] rest]; try done;
      by intros [= <- <-].
  - unfold resolveOverTLS. run. rewrite E.
    by destruct (cache.Object item).
Qed.

Lemma stored_entry env w domain answer :
  cache.defaultExpiration (inmem w) = time.Minute ->
  0 <= ttl answer < 2 ^ 32 -> 0 <= now env (reads w) < 2 ^ 62 ->
  cache.items (inmem (stored env w domain answer)) !! domain
    = Some (cache.mkItem (OfAnswer answer)
              (now env (reads w) + lifetime (ttl answer) * time.Second))
  /\ reads (stored env w domain answer) = S (reads w)
  /\ cache.defaultExpiration (inmem (stored env w domain answer)) = time.Minute.
Proof.
  intros Hde Httl Hclk. unfold stored. rewrite Set_entry by done.
  cbn [inmem reads cache.items cache.defaultExpiration].
  by rewrite lookup_insert_eq.
Qed.

Lemma stored_reads env w domain answer :
  cache.defaultExpiration (inmem w) = time.Minute ->
  0 <= ttl answer < 2 ^ 32 ->
  reads (stored env w domain answer) = S (reads w).
Proof.
  intros Hde Httl. unfold stored, cache.Set_.
  rewrite ttlDuration_seconds, Hde by done. cbv zeta.
  unfold cache.DefaultExpiration, time.Minute, time.Second.
  destruct (Z.eqb_spec (ttl answer * 1000000000) 0).
  - done.
  - by rewrite (proj2 (Z.ltb_lt _ _)) by lia.
Qed.

(** X4. Once a call of [resolveOverTLS] has answered from upstream, a
    call for the same domain that follows it within the lifetime of the
    answer (its TTL in seconds, and 60 seconds for a TTL of 0), on a
    clock that does not run backwards, is answered from the store: it
    returns the same address with [useCache = true] and a TTL between 0
    and that lifetime, consults no resolver and leaves the store and
    the trace as they were. *)
Theorem resolveOverTLS_then_hit env env2 w w1 domain dnsServer dnsServer2 answer :
  resolveOverTLS domain dnsServer env w = (Ret (answer, false, None), w1) ->
  cache.defaultExpiration (inmem w) = time.Minute ->
  0 <= ttl answer < 2 ^ 32 ->
  now env2 = now env ->
  let n := reads w1 in
  let tstore := now env (Nat.pred n) in
  0 <= tstore < 2 ^ 62 ->
  tstore <= now env n <= now env (S n) ->
  now env (S n) <= tstore + lifetime (ttl answer) * time.Second ->
  exists left,
    resolveOverTLS domain dnsServer2 env2 w1 =
      (Ret (mkAnswer (ip answer) left, true, None),
       mkWorld (inmem w1) (S (S n)) (trace w1)) /\
    0 <= left <= lifetime (ttl answer).
Proof.
  intros Hres Hde Httl Hnow.
  destruct (resolveOverTLS_stored _ _ _ _ _ _ Hres) as [_ ->].
  set (w0 := mkWorld _ _ _).
  assert (Hde0 : cache.defaultExpiration (inmem w0) = time.Minute) by done.
  rewrite (stored_reads env w0 domain answer Hde0 Httl).
  cbv zeta. cbn [Nat.pred]. intros Hs Hclk Hlive.
  destruct (stored_entry env w0 domain answer Hde0 Httl Hs) as (Hit & Hr & _).
  destruct (resolveOverTLS_after_store env2 (stored env w0 domain answer)
              domain dnsServer2 answer (now env (reads w0)) Httl Hs Hit)
    as (left & Hcall & Hleft); rewrite ?Hnow, ?Hr; try done.
  exists left. split; [|done]. by rewrite Hcall, Hr.
Qed.

Lemma resolveOverTLS_then_hit_witness :
  let env := sample.env time.Second (sample.answers []) in
  let env2 := sample.env time.Second sample.timeout in
  resolveOverTLS "example.com." "1.1.1.1:853" env sample.start
    = (Ret (zeroAnswer, false, None), sample.emptied) /\
  cache.defaultExpiration (inmem sample.start) = time.Minute /\
  0 <= ttl zeroAnswer < 2 ^ 32 /\
  now env2 = now env /\
  0 <= now env 0 < 2 ^ 62 /\
  now env 0 <= now env 1 <= now env 2 /\
  now env 2 <= now env 0 + lifetime (ttl zeroAnswer) * time.Second /\
  exists left,
    resolveOverTLS "example.com." "9.9.9.9:853" env2 sample.emptied =
      (Ret (mkAnswer "" left, true, None),
       mkWorld (inmem sample.emptied) 3 (trace sample.emptied)) /\
    0 <= left <= 60.
Proof.
  cbv zeta. split; [reflexivity|]. split; [reflexivity|].
  split; [by vm_compute|]. split; [reflexivity|]. split; [by vm_compute|].
  split; [by vm_compute|]. split; [by vm_compute|].
  apply (resolveOverTLS_then_hit
           (sample.env time.Second (sample.answers []))
           (sample.env time.Second sample.timeout)
           sample.start sample.emptied "example.com." "1.1.1.1:853"
           "9.9.9.9:853" zeroAnswer);
    try reflexivity; by vm_compute.
Defined.

(** X6. An entry whose expiration the clock has passed is not served
    even if no sweep has removed it: the call goes upstream, and when
    the response opens with an A record the fresh answer is returned
    and replaces the entry, with an expiration of its own. *)
Theorem resolveOverTLS_refresh env w domain dnsServer item in_ hdr a rest :
  cache.items (inmem w) !! domain = Some item ->
  0 < cache.Expiration item < now env (reads w) ->
  now env (reads w) < 2 ^ 63 ->
  upstream env (question env domain) dnsServer = inl in_ ->
  dns.Answer in_ = dns.A hdr a :: rest ->
  cache.defaultExpiration (inmem w) = time.Minute ->
  0 <= dns.Ttl hdr < 2 ^ 32 ->
  0 <= now env (S (reads w)) < 2 ^ 62 ->
  let answer := mkAnswer (IP_String env a) (dns.Ttl hdr) in
  exists w',
    resolveOverTLS domain dnsServer env w = (Ret (answer, false, None), w') /\
    exchanges (trace w') = exchanges (trace w) ++ [(question env domain, dnsServer)] /\
    cache.items (inmem w') !! domain
      = Some (cache.mkItem (OfAnswer answer)
                (now env (S (reads w)) + lifetime (dns.Ttl hdr) * time.Second)).
Proof.
  intros Hit Hexp Hget Hup Hans Hde Httl Hclk. cbv zeta.
  assert (E : cache.GetWithExpiration (inmem w) domain (now env) (reads w)
              = ((Nil, time.zeroTime, false), S (reads w))).
  { apply (Get_expired _ _ item); [done|].
    unfold time.UnixNano. rewrite wrap64_id; lia. }
  rewrite (resolveOverTLS_miss _ _ _ _ _ _ _ E). cbv zeta.
  rewrite Hup, Hans. eexists. split; [done|].
  rewrite stored_trace. cbn [trace]. rewrite exchanges_app. split; [done|].
  unfold stored. cbn [inmem reads trace ttl].
  rewrite Set_entry by done. cbn [inmem cache.items].
  by rewrite lookup_insert_eq.
Qed.

Lemma resolveOverTLS_refresh_witness :
  let env := mkEnv (fun n => sample.t0 + 400 * time.Second + Z.of_nat n)
                   (sample.answers [sample.rrA 120]) 4242
                   sample.parse sample.print "1.1.1.1:853" in
  let old := cache.mkItem (OfAnswer (mkAnswer "93.184.216.34" 300))
                          (sample.t0 + 300 * time.Second) in
  cache.items (inmem sample.warmed) !! "example.com." = Some old /\
  0 < cache.Expiration old < now env (reads sample.warmed) /\
  exists w',
    resolveOverTLS "example.com." "1.1.1.1:853" env sample.warmed
      = (Ret (mkAnswer "93.184.216.34" 120, false, None), w') /\
    exchanges (trace w')
      = exchanges (trace sample.warmed)
          ++ [(question env "example.com.", "1.1.1.1:853")] /\
    cache.items (inmem w') !! "example.com."
      = Some (cache.mkItem (OfAnswer (mkAnswer "93.184.216.34" 120))
                (now env (S (reads sample.warmed))
                 + lifetime 120 * time.Second)).
Proof.
  cbv zeta. split; [by vm_compute|]. split; [by vm_compute|].
  apply (resolveOverTLS_refresh
           (mkEnv (fun n => sample.t0 + 400 * time.Second + Z.of_nat n)
                  (sample.answers [sample.rrA 120]) 4242
                  sample.parse sample.print "1.1.1.1:853")
           sample.warmed "example.com." "1.1.1.1:853"
           (cache.mkItem (OfAnswer (mkAnswer "93.184.216.34" 300))
                         (sample.t0 + 300 * time.Second))
           (sample.response [sample.rrA 120])
           (dns.mkHeader "example.com." dns.TypeA dns.ClassINET 120 4)
           sample.addr []);
    try reflexivity; by vm_compute.
Defined.

(** X13. While an entry has at most 2^24 seconds to live, the TTL
    computed for it does not grow with the time of the computation. *)
Theorem remaining_antitone expr t1 t2 :
  t1 <= t2 -> t2 <= expr -> expr - t1 <= 2 ^ 24 * time.Second ->
  0 <= remaining expr t2 <= remaining expr t1.
Proof.
  unfold time.Second. intros H12 H2e H24.
  rewrite !remaining_floor by (unfold time.Second; lia).
  unfold time.Second. split.
  - apply Z.div_pos; lia.
  - apply Z.div_le_mono; lia.
Qed.

Lemma remaining_antitone_witness :
  sample.t0 + 1 <= sample.t0 + 2 * time.Second /\
  sample.t0 + 2 * time.Second <= sample.t0 + 300 * time.Second /\
  0 <= remaining (sample.t0 + 300 * time.Second) (sample.t0 + 2 * time.Second)
    <= remaining (sample.t0 + 300 * time.Second) (sample.t0 + 1).
Proof.
  split; [by vm_compute|]. split; [by vm_compute|].
  apply (remaining_antitone (sample.t0 + 300 * time.Second) (sample.t0 + 1)
           (sample.t0 + 2 * time.Second)); by vm_compute.
Defined.

(** ** The handler: what it writes and logs *)

(** The [useCache] result tells whether the lookup found the domain. *)
Lemma resolveOverTLS_useCache domain dnsServer env w answer uc err :
  (resolveOverTLS domain dnsServer env w).1 = Ret (answer, uc, err) ->
  uc = found env w domain.
Proof.
  unfold found.
  destruct (Get_cases (inmem w) domain (now env) (reads w))
    as [(mem & expr & n' & E) | (item & n' & _ & E)].
  - rewrite (resolveOverTLS_miss _ _ _ _ _ _ _ E), E. cbv zeta. cbn [fst snd].
    destruct (upstream env _ dnsServer) as [in_ | err']; [|by intros [= _ <- _]].
    destruct (dns.Answer in_) as [|[hdr a | hdr rd] rest]; by intros [= _ <- _].
  - unfold resolveOverTLS. run. rewrite E. cbn [fst snd].
    destruct (cache.Object item); try done. by intros [= _ <- _].
Qed.

(** What a call of the handler adds to the trace: its events hold no
    reply, or the one reply to a first question of type A. *)
Lemma ServeDNS_events w r env wd :
  exists evs,
    trace (ServeDNS w r env wd).2 = trace wd ++ evs /\
    (replies evs = [] \/
     exists q qs answer,
       dns.Question_ r = q :: qs /\ dns.Qtype q = dns.TypeA /\
       replies evs = [reply env r (dns.Name q) answer]).
Proof.
  destruct (dns.Question_ r) as [|q qs] eqn:Hq.
  { rewrite ServeDNS_no_question by done. eexists. split; [done|]. by left. }
  destruct (Z.eq_dec (dns.Qtype q) dns.TypeA) as [HA | HA].
  2:{ rewrite (ServeDNS_other_type _ _ _ _ q qs) by done.
      eexists. split; [done|]. by left. }
  pose proof (resolveOverTLS_trace (dns.Name q) (resolver env) env
                (mkWorld (inmem wd) (reads wd) (trace wd ++ [requestLog w q])))
    as (evs & Htr & Hevs).
  destruct (resolveOverTLS _ _ _ _) as [o w2] eqn:Hres.
  cbn [snd trace] in Htr.
  rewrite (ServeDNS_typeA _ _ _ _ _ _ _ _ Hq HA Hres).
  destruct o as [[[answer uc] err]|reason]; cbn [snd trace].
  - exists ([requestLog w q] ++ evs ++ served env w r (dns.Name q) answer uc err).
    split; [by rewrite Htr, <- !app_assoc|].
    right. exists q, qs, answer. split; [done|]. split; [done|].
    rewrite !replies_app, Hevs. unfold served. rewrite !replies_app.
    by destruct err, (dns.WriteMsg_err w _).
  - exists ([requestLog w q] ++ evs). split; [by rewrite Htr, <- !app_assoc|].
    left. by rewrite replies_app, Hevs.
Qed.

(** X8. Every reply a call of the handler writes is marked as a
    response and carries the success code, whatever became of the
    resolution; it repeats the opcode of the query and, for a standard
    query, its RD and CD bits, and never sets the AA, TC or RA bit. *)
Theorem ServeDNS_reply_header w r env wd :
  exists evs,
    trace (ServeDNS w r env wd).2 = trace wd ++ evs /\
    Forall (fun m =>
              let h := dns.Hdr m in
              dns.Response h = true /\
              dns.Rcode h = dns.RcodeSuccess /\
              dns.Opcode h = dns.Opcode (dns.Hdr r) /\
              (dns.Opcode (dns.Hdr r) = dns.OpcodeQuery ->
               dns.RecursionDesired h = dns.RecursionDesired (dns.Hdr r) /\
               dns.CheckingDisabled h = dns.CheckingDisabled (dns.Hdr r)) /\
              dns.Authoritative h = false /\
              dns.Truncated h = false /\
              dns.RecursionAvailable h = false)
           (replies evs).
Proof.
  destruct (ServeDNS_events w r env wd) as (evs & Htr & Hcase).
  exists evs. split; [done|].
  destruct Hcase as [-> | (q & qs & answer & Hq & _ & ->)]; [by constructor|].
  apply Forall_singleton. unfold reply, dns.SetReply. rewrite Hq. cbn.
  split; [done|]. split; [done|]. split; [done|]. split; [|done].
  intros Hop. by rewrite (proj2 (Z.eqb_eq _ _) Hop).
Qed.

(** The handler on a first question of type A, from a store that only
    holds answers: the resolution returns, and the handler with it. *)
Lemma ServeDNS_typeA_run w r env wd q qs :
  answers_only (inmem wd) ->
  dns.Question_ r = q :: qs -> dns.Qtype q = dns.TypeA ->
  exists answer err w2,
    resolveOverTLS (dns.Name q) (resolver env) env
      (mkWorld (inmem wd) (reads wd) (trace wd ++ [requestLog w q]))
      = (Ret (answer, found env wd (dns.Name q), err), w2) /\
    ServeDNS w r env wd =
      (Ret tt,
       mkWorld (inmem w2) (reads w2)
         (trace w2 ++ served env w r (dns.Name q) answer
                         (found env wd (dns.Name q)) err)) /\
    exists evs, trace w2 = trace wd ++ [requestLog w q] ++ evs /\ replies evs = [].
Proof.
  intros Hc Hq HA.
  set (w1 := mkWorld (inmem wd) (reads wd) (trace wd ++ [requestLog w q])).
  destruct (answers_only_resolveOverTLS (dns.Name q) (resolver env) env w1 Hc)
    as [_ [[[answer uc] err] Hret]].
  pose proof (resolveOverTLS_useCache _ _ _ _ _ _ _ Hret) as Huc.
  pose proof (resolveOverTLS_trace (dns.Name q) (resolver env) env w1)
    as (evs & Htr & Hevs).
  destruct (resolveOverTLS _ _ _ w1) as [o w2] eqn:Hres.
  cbn [fst] in Hret. cbn [snd] in Htr. subst o.
  change (found env w1 (dns.Name q)) with (found env wd (dns.Name q)) in Huc.
  subst uc. exists answer, err, w2. split; [done|]. split.
  - by rewrite (ServeDNS_typeA _ _ _ _ _ _ _ _ Hq HA Hres).
  - exists evs. split; [|done]. rewrite Htr. unfold w1. cbn [trace].
    by rewrite <- app_assoc.
Qed.

(** X9. From every reachable state of the store, and whatever the
    query, the client and the surroundings, a call of the handler
    returns: it does not panic. *)
Theorem ServeDNS_never_panics w r env wd :
  reachable (inmem wd) -> (ServeDNS w r env wd).1 = Ret tt.
Proof.
  intros Hc. apply ServeDNS_returns. by apply reachable_answers_only.
Qed.

Lemma ServeDNS_never_panics_witness :
  reachable (inmem sample.warmed) /\
  (ServeDNS sample.closed (sample.query [sample.qA; sample.qAAAA])
            (sample.env time.Second sample.timeout) sample.warmed).1 = Ret tt.
Proof.
  split; [apply warmed_reachable|].
  apply (ServeDNS_never_panics sample.closed
           (sample.query [sample.qA; sample.qAAAA])
           (sample.env time.Second sample.timeout) sample.warmed),
    warmed_reachable.
Defined.

(** X7. For every query whose first question is of type A, from a
    reachable store, the handler writes exactly one reply, also when
    the resolution failed: its question section is that first question
    and its answer section is one A record of class IN, named as the
    question is, with the TTL of the answer [resolveOverTLS] returned
    and the address parsed from the text of that answer. *)
Theorem ServeDNS_typeA_reply w r env wd q qs :
  reachable (inmem wd) ->
  dns.Question_ r = q :: qs -> dns.Qtype q = dns.TypeA ->
  exists answer uc err w2 m,
    resolveOverTLS (dns.Name q) (resolver env) env
      (mkWorld (inmem wd) (reads wd) (trace wd ++ [requestLog w q]))
      = (Ret (answer, uc, err), w2) /\
    replies (trace (ServeDNS w r env wd).2) = replies (trace wd) ++ [m] /\
    dns.Question_ m = [q] /\
    dns.Answer m =
      [dns.A (dns.mkHeader (dns.Name q) dns.TypeA dns.ClassINET (ttl answer) 0)
             (ParseIP env (ip answer))] /\
    dns.Ns m = [] /\ dns.Extra m = [].
Proof.
  intros Hc Hq HA.
  destruct (ServeDNS_typeA_run w r env wd q qs
              (reachable_answers_only _ Hc) Hq HA)
    as (answer & err & w2 & Hres & Hrun & evs & Htr & Hevs).
  exists answer, (found env wd (dns.Name q)), err, w2,
    (reply env r (dns.Name q) answer).
  split; [done|]. rewrite Hrun. cbn [snd trace]. split.
  - rewrite Htr, !replies_app, Hevs. unfold served. rewrite !replies_app.
    cbn [replies omap]. rewrite !app_nil_r.
    by destruct err, (dns.WriteMsg_err w _).
  - unfold reply, dns.SetReply. rewrite Hq. by cbn.
Qed.

Lemma ServeDNS_typeA_reply_witness :
  let env := sample.env time.Second sample.timeout in
  let r := sample.query [sample.qA; sample.qAAAA] in
  reachable (inmem sample.warmed) /\
  dns.Question_ r = sample.qA :: [sample.qAAAA] /\
  dns.Qtype sample.qA = dns.TypeA /\
  exists answer uc err w2 m,
    resolveOverTLS (dns.Name sample.qA) (resolver env) env
      (mkWorld (inmem sample.warmed) (reads sample.warmed)
               (trace sample.warmed ++ [requestLog sample.writer sample.qA]))
      = (Ret (answer, uc, err), w2) /\
    replies (trace (ServeDNS sample.writer r env sample.warmed).2)
      = replies (trace sample.warmed) ++ [m] /\
    dns.Question_ m = [sample.qA] /\
    dns.Answer m =
      [dns.A (dns.mkHeader (dns.Name sample.qA) dns.TypeA dns.ClassINET
                           (ttl answer) 0)
             (ParseIP env (ip answer))] /\
    dns.Ns m = [] /\ dns.Extra m = [].
Proof.
  cbv zeta. split; [apply warmed_reachable|]. split; [reflexivity|].
  split; [reflexivity|].
  apply (ServeDNS_typeA_reply sample.writer
           (sample.query [sample.qA; sample.qAAAA])
           (sample.env time.Second sample.timeout) sample.warmed
           sample.qA [sample.qAAAA] warmed_reachable);
    reflexivity.
Defined.

(** X10. Every query with a question is logged first, at info level,
    with the address and the network of the client and the name of the
    first question; and for a first question of type A, from a
    reachable store, the "Cache usage" record that follows carries in
    [use_cache] whether the lookup of the name found it. *)
Theorem ServeDNS_logs w r env wd q qs :
  dns.Question_ r = q :: qs ->
  (exists evs,
     trace (ServeDNS w r env wd).2
       = trace wd
           ++ Log InfoLevel
                  [("remote_addr", OfString (dns.RemoteAddr_String w));
                   ("requested_domain", OfString (dns.Name q));
                   ("protocol", OfString (dns.RemoteAddr_Network w))]
                  "DNS request" :: evs) /\
  (reachable (inmem wd) -> dns.Qtype q = dns.TypeA ->
   Log InfoLevel [("use_cache", OfBool (found env wd (dns.Name q)))]
       "Cache usage" ∈ trace (ServeDNS w r env wd).2).
Proof.
  intros Hq. split.
  - destruct (Z.eq_dec (dns.Qtype q) dns.TypeA) as [HA | HA].
    + destruct (resolveOverTLS (dns.Name q) (resolver env) env
                  (mkWorld (inmem wd) (reads wd) (trace wd ++ [requestLog w q])))
        as [o w2] eqn:Hres.
      pose proof (resolveOverTLS_trace (dns.Name q) (resolver env) env
                    (mkWorld (inmem wd) (reads wd) (trace wd ++ [requestLog w q])))
        as (evs & Htr & _).
      rewrite Hres in Htr. cbn [snd trace] in Htr.
      rewrite (ServeDNS_typeA _ _ _ _ _ _ _ _ Hq HA Hres).
      destruct o as [[[answer uc] err]|reason]; cbn [snd trace]; rewrite Htr;
        eexists; rewrite <- !app_assoc; reflexivity.
    + rewrite (ServeDNS_other_type _ _ _ _ q qs) by done. by eexists.
  - intros Hc HA.
    destruct (ServeDNS_typeA_run w r env wd q qs
                (reachable_answers_only _ Hc) Hq HA)
      as (answer & err & w2 & _ & -> & _).
    cbn [snd trace]. apply elem_of_app. right. unfold served.
    apply elem_of_app. right. apply list_elem_of_here.
Qed.

Lemma ServeDNS_logs_witness :
  let env := sample.env time.Second sample.timeout in
  let r := sample.query [sample.qA] in
  dns.Question_ r = [sample.qA] /\
  reachable (inmem sample.warmed) /\
  dns.Qtype sample.qA = dns.TypeA /\
  Log InfoLevel [("use_cache", OfBool (found env sample.warmed "example.com."))]
      "Cache usage" ∈ trace (ServeDNS sample.writer r env sample.warmed).2.
Proof.
  cbv zeta. split; [reflexivity|]. split; [apply warmed_reachable|].
  split; [reflexivity|].
  apply (proj2 (ServeDNS_logs sample.writer (sample.query [sample.qA])
                  (sample.env time.Second sample.timeout) sample.warmed
                  sample.qA [] eq_refl) warmed_reachable eq_refl).
Defined.

(** X11. When the write of the reply fails, the handler still returns:
    the error of the write is the last thing it logs, at error level,
    right after the reply it tried to write, and the store keeps what
    the resolution made of it. *)
Theorem ServeDNS_write_error w r env wd q qs e :
  reachable (inmem wd) ->
  dns.Question_ r = q :: qs -> dns.Qtype q = dns.TypeA ->
  (forall m, dns.WriteMsg_err w m = Some e) ->
  exists tr m,
    ServeDNS w r env wd
      = (Ret tt,
         mkWorld
           (inmem (resolveOverTLS (dns.Name q) (resolver env) env
                     (mkWorld (inmem wd) (reads wd)
                              (trace wd ++ [requestLog w q]))).2)
           (reads (ServeDNS w r env wd).2)
           (tr ++ [Wrote m; Log ErrorLevel [] e])).
Proof.
  intros Hc Hq HA Hw.
  destruct (ServeDNS_typeA_run w r env wd q qs
              (reachable_answers_only _ Hc) Hq HA)
    as (answer & err & w2 & Hres & Hrun & _).
  rewrite Hrun, Hres. cbn [snd inmem reads]. unfold served. rewrite Hw.
  exists (trace w2
            ++ match err with Some e0 => [Log InfoLevel [] e0] | None => [] end
            ++ [Log InfoLevel
                  [("use_cache", OfBool (found env wd (dns.Name q)))]
                  "Cache usage"]),
    (reply env r (dns.Name q) answer).
  do 2 f_equal. by rewrite <- !app_assoc.
Qed.

Lemma ServeDNS_write_error_witness :
  let env := sample.env time.Second (sample.answers [sample.rrA 300]) in
  let r := sample.query [sample.qA] in
  let e := "write: broken pipe" in
  reachable (inmem sample.start) /\
  dns.Question_ r = [sample.qA] /\
  dns.Qtype sample.qA = dns.TypeA /\
  (forall m, dns.WriteMsg_err sample.closed m = Some e) /\
  exists tr m,
    ServeDNS sample.closed r env sample.start
      = (Ret tt,
         mkWorld
           (inmem (resolveOverTLS (dns.Name sample.qA) (resolver env) env
                     (mkWorld (inmem sample.start) (reads sample.start)
                              (trace sample.start
                                 ++ [requestLog sample.closed sample.qA]))).2)
           (reads (ServeDNS sample.closed r env sample.start).2)
           (tr ++ [Wrote m; Log ErrorLevel [] e])).
Proof.
  cbv zeta. split; [apply reach_init|]. split; [reflexivity|].
  split; [reflexivity|]. split; [reflexivity|].
  apply (ServeDNS_write_error sample.closed (sample.query [sample.qA])
           (sample.env time.Second (sample.answers [sample.rrA 300]))
           sample.start sample.qA [] "write: broken pipe" reach_init);
    reflexivity.
Defined.

(** ** Two queries for one name *)

(** X5. When the handler has answered a question of type A from
    upstream, a query for the same name that any client sends within
    the lifetime of the answer (its TTL in seconds, and 60 seconds for
    a TTL of 0), on a clock that does not run backwards, is answered
    from the store: the handler passes one reply to [WriteMsg], with
    the stored address and a TTL between 0 and that lifetime, makes no
    call of the resolver and leaves the store as it was; and when the
    write succeeds the call adds to the trace the request record, the
    "Cache usage" record with [use_cache] set and that reply, and
    nothing else. *)
Theorem ServeDNS_then_cached w w' r r' env env2 wd q qs q' qs' answer w1 :
  dns.Question_ r = q :: qs -> dns.Qtype q = dns.TypeA ->
  resolveOverTLS (dns.Name q) (resolver env) env
    (mkWorld (inmem wd) (reads wd) (trace wd ++ [requestLog w q]))
    = (Ret (answer, false, None), w1) ->
  cache.defaultExpiration (inmem wd) = time.Minute ->
  0 <= ttl answer < 2 ^ 32 ->
  dns.Question_ r' = q' :: qs' -> dns.Qtype q' = dns.TypeA ->
  dns.Name q' = dns.Name q ->
  now env2 = now env ->
  let wd1 := (ServeDNS w r env wd).2 in
  let n := reads wd1 in
  let tstore := now env (Nat.pred n) in
  0 <= tstore < 2 ^ 62 ->
  tstore <= now env n <= now env (S n) ->
  now env (S n) <= tstore + lifetime (ttl answer) * time.Second ->
  exists left,
    let m := reply env2 r' (dns.Name q) (mkAnswer (ip answer) left) in
    0 <= left <= lifetime (ttl answer) /\
    (ServeDNS w' r' env2 wd1).1 = Ret tt /\
    replies (trace (ServeDNS w' r' env2 wd1).2) = replies (trace wd1) ++ [m] /\
    exchanges (trace (ServeDNS w' r' env2 wd1).2) = exchanges (trace wd1) /\
    inmem (ServeDNS w' r' env2 wd1).2 = inmem wd1 /\
    (dns.WriteMsg_err w' m = None ->
     trace (ServeDNS w' r' env2 wd1).2
       = trace wd1
           ++ [requestLog w' q';
               Log InfoLevel [("use_cache", OfBool true)] "Cache usage";
               Wrote m]).
Proof.
  intros Hq HA Hres Hde Httl Hq' HA' Hname Hnow.
  rewrite (ServeDNS_typeA _ _ _ _ _ _ _ _ Hq HA Hres). cbn [snd reads].
  destruct (resolveOverTLS_stored _ _ _ _ _ _ Hres) as [_ Hw1].
  set (w0 := mkWorld _ _ _) in Hw1.
  assert (Hde0 : cache.defaultExpiration (inmem w0) = time.Minute) by done.
  assert (Hr1 : reads w1 = S (reads w0))
    by (rewrite Hw1; by apply stored_reads).
  rewrite Hr1. cbv zeta. cbn [Nat.pred]. intros Hs Hclk Hlive.
  destruct (stored_entry env w0 (dns.Name q) answer Hde0 Httl Hs) as (Hit & _ & _).
  rewrite <- Hw1 in Hit.
  set (wd1 := mkWorld (inmem w1) (S (reads w0))
                (trace w1 ++ served env w r (dns.Name q) answer false None)).
  set (w2 := mkWorld (inmem wd1) (reads wd1) (trace wd1 ++ [requestLog w' q'])).
  destruct (resolveOverTLS_after_store env2 w2 (dns.Name q') (resolver env2)
              answer (now env (reads w0)) Httl Hs)
    as (left & Hcall & Hleft);
    rewrite ?Hnow, ?Hname; try done.
  exists left. split; [done|].
  rewrite (ServeDNS_typeA _ _ _ _ _ _ _ _ Hq' HA' Hcall).
  cbn [fst snd inmem trace]. split; [done|].
  unfold w2. cbn [trace inmem].
  unfold served. rewrite Hname, !replies_app, !exchanges_app.
  assert (replies [requestLog w' q'] = []) as -> by done.
  assert (exchanges [requestLog w' q'] = []) as -> by done.
  split; [|split; [|split]].
  - destruct (dns.WriteMsg_err w' _); cbn [replies exchanges omap app];
      by rewrite !app_nil_r.
  - destruct (dns.WriteMsg_err w' _); cbn [replies exchanges omap app];
      by rewrite !app_nil_r.
  - done.
  - intros ->. cbn [app]. by rewrite <- app_assoc.
Qed.

Lemma ServeDNS_then_cached_witness :
  let env := sample.env time.Second (sample.answers [sample.rrA 300]) in
  let env2 := sample.env time.Second sample.timeout in
  let r := sample.query [sample.qA] in
  let wd1 := (ServeDNS sample.writer r env sample.start).2 in
  cache.defaultExpiration (inmem sample.start) = time.Minute /\
  0 <= now env 0 < 2 ^ 62 /\
  now env 0 <= now env 1 <= now env 2 /\
  now env 2 <= now env 0 + lifetime 300 * time.Second /\
  map dns.Answer (replies (trace (ServeDNS sample.writer r env2 wd1).2))
    = map dns.Answer (replies (trace wd1))
        ++ [[dns.A (dns.mkHeader "example.com." dns.TypeA dns.ClassINET 298 0)
                   sample.addr]] /\
  exists left,
    let m := reply env2 r "example.com." (mkAnswer "93.184.216.34" left) in
    0 <= left <= lifetime 300 /\
    (ServeDNS sample.writer r env2 wd1).1 = Ret tt /\
    replies (trace (ServeDNS sample.writer r env2 wd1).2)
      = replies (trace wd1) ++ [m] /\
    exchanges (trace (ServeDNS sample.writer r env2 wd1).2)
      = exchanges (trace wd1) /\
    inmem (ServeDNS sample.writer r env2 wd1).2 = inmem wd1 /\
    (dns.WriteMsg_err sample.writer m = None ->
     trace (ServeDNS sample.writer r env2 wd1).2
       = trace wd1
           ++ [requestLog sample.writer sample.qA;
               Log InfoLevel [("use_cache", OfBool true)] "Cache usage";
               Wrote m]).
Proof.
  cbv zeta. split; [reflexivity|]. split; [by vm_compute|].
  split; [by vm_compute|]. split; [by vm_compute|]. split; [by vm_compute|].
  apply (ServeDNS_then_cached sample.writer sample.writer
           (sample.query [sample.qA]) (sample.query [sample.qA])
           (sample.env time.Second (sample.answers [sample.rrA 300]))
           (sample.env time.Second sample.timeout)
           sample.start sample.qA [] sample.qA []
           (mkAnswer "93.184.216.34" 300)
           (resolveOverTLS "example.com." "1.1.1.1:853"
              (sample.env time.Second (sample.answers [sample.rrA 300]))
              (mkWorld (inmem sample.start) (reads sample.start)
                 (trace sample.start ++ [requestLog sample.writer sample.qA]))).2);
    try reflexivity; by vm_compute.
Defined.

(** ** The default expiration, and a response without answers *)

Lemma DeleteExpired_defaultExpiration c clk n :
  cache.defaultExpiration (cache.DeleteExpired c clk n).1
    = cache.defaultExpiration c.
Proof. reflexivity. Qed.

(** No call changes the default expiration of the store: in every
    reachable state it is the minute of [inmem]. *)
Lemma reachable_defaultExpiration c :
  reachable c -> cache.defaultExpiration c = time.Minute.
Proof.
  induction 1 as [|c env n tr w r o w' _ IH Hrun
                  |c env n tr domain dnsServer o w' _ IH Hrun
                  |c env n tr domain answer _ IH
                  |c clk n _ IH].
  - reflexivity.
  - pose proof (ServeDNS_inmem w r env (mkWorld c n tr)) as Hin.
    rewrite Hrun in Hin. cbn [snd inmem] in Hin.
    destruct Hin as [-> | (q & qs & answer & m & _ & _ & _ & ->)]; [done|].
    by rewrite Set_defaultExpiration.
  - pose proof (resolveOverTLS_inmem domain dnsServer env (mkWorld c n tr)) as Hin.
    rewrite Hrun in Hin. cbn [snd inmem] in Hin.
    destruct Hin as [-> | (answer & m & _ & ->)]; [done|].
    by rewrite Set_defaultExpiration.
  - rewrite stored_inmem. by rewrite Set_defaultExpiration.
  - done.
Qed.

(** X15. When the lookup misses and the resolver answers without a
    transport error and without any answer record, the handler still
    writes a reply with the success code and one A record: its TTL is
    0 and its address is what [net.ParseIP] makes of the empty string;
    and the empty answer is kept in the store under the name. *)
Theorem ServeDNS_no_answer_reply w r env wd q qs in_ :
  dns.Question_ r = q :: qs -> dns.Qtype q = dns.TypeA ->
  found env wd (dns.Name q) = false ->
  upstream env (question env (dns.Name q)) (resolver env) = inl in_ ->
  dns.Answer in_ = [] ->
  exists m e,
    (ServeDNS w r env wd).1 = Ret tt /\
    replies (trace (ServeDNS w r env wd).2) = replies (trace wd) ++ [m] /\
    dns.Answer m =
      [dns.A (dns.mkHeader (dns.Name q) dns.TypeA dns.ClassINET 0 0)
             (ParseIP env "")] /\
    dns.Rcode (dns.Hdr m) = dns.RcodeSuccess /\
    cache.items (inmem (ServeDNS w r env wd).2) !! dns.Name q
      = Some (cache.mkItem (OfAnswer (mkAnswer "" 0)) e).
Proof.
  unfold found. intros Hq HA Hf Hup Hans.
  set (w1 := mkWorld (inmem wd) (reads wd) (trace wd ++ [requestLog w q])).
  destruct (cache.GetWithExpiration (inmem wd) (dns.Name q) (now env) (reads wd))
    as [[[mem expr] f] n] eqn:E.
  cbn in Hf. subst f.
  pose proof (resolveOverTLS_miss env w1 (dns.Name q) (resolver env) mem expr n E)
    as Hres.
  cbv zeta in Hres. rewrite Hup, Hans in Hres.
  rewrite (ServeDNS_typeA _ _ _ _ _ _ _ _ Hq HA Hres). cbn [fst snd inmem trace].
  eexists (reply env r (dns.Name q) zeroAnswer), _.
  split; [done|]. split; [|split; [|split]].
  - rewrite stored_trace. cbn [trace w1]. unfold served.
    rewrite !replies_app. cbn [replies omap app requestLog]. rewrite !app_nil_r.
    by destruct (dns.WriteMsg_err w _).
  - unfold reply, dns.SetReply. rewrite Hq. by cbn.
  - unfold reply, dns.SetReply. rewrite Hq. by cbn.
  - rewrite stored_inmem. by rewrite Set_lookup.
Qed.

Lemma ServeDNS_no_answer_reply_witness :
  let env := sample.env time.Second (sample.answers []) in
  let r := sample.query [sample.qA] in
  found env sample.start "example.com." = false /\
  upstream env (question env "example.com.") (resolver env)
    = inl (sample.response []) /\
  exists m e,
    (ServeDNS sample.writer r env sample.start).1 = Ret tt /\
    replies (trace (ServeDNS sample.writer r env sample.start).2)
      = replies (trace sample.start) ++ [m] /\
    dns.Answer m =
      [dns.A (dns.mkHeader "example.com." dns.TypeA dns.ClassINET 0 0)
             (ParseIP env "")] /\
    dns.Rcode (dns.Hdr m) = dns.RcodeSuccess /\
    cache.items (inmem (ServeDNS sample.writer r env sample.start).2)
      !! "example.com."
      = Some (cache.mkItem (OfAnswer (mkAnswer "" 0)) e).
Proof.
  cbv zeta. split; [reflexivity|]. split; [reflexivity|].
  apply (ServeDNS_no_answer_reply sample.writer (sample.query [sample.qA])
           (sample.env time.Second (sample.answers [])) sample.start
           sample.qA [] (sample.response []));
    reflexivity.
Defined.
